(** * shacl-form: the ShaclForm host element

  A shallow embedding of the custom element defined in the form's core
  module (the class [ShaclForm] inside [init]), together with the parts of
  the RDF/JS data model and of the DOM it touches.

  - RDF terms and quads are inductive data; the N3 store and the
    [DatasetCore] of shapes are duplicate-free lists of quads in
    iteration order.
  - An element is its attribute map ([gmap string string]); the host
    element also carries the chain of its ancestors, nearest first, which
    is what [closest] walks.
  - The private fields of the class are the fields of the record
    [ShaclForm]; methods are computations in a state-and-exception monad
    over that record. *)

From Stdlib Require Import String Ascii List Bool Arith Lia.
From stdpp Require Import base option list strings gmap.
Import ListNotations.
Local Open Scope string_scope.
Local Open Scope list_scope.

(** ** RDF/JS terms and quads *)

Module Rdf.

Inductive Term : Type :=
| NamedNode (value : string)
| BlankNode (value : string)
| Literal (value : string) (language : string) (datatype : string)
| DefaultGraph.

#[global] Instance Term_eq_dec : EqDecision Term.
Proof. solve_decision. Defined.

(** [term.value] *)
Definition value (t : Term) : string :=
  match t with
  | NamedNode v | BlankNode v | Literal v _ _ => v
  | DefaultGraph => ""
  end.

(** [(term as Literal).language]: [undefined] on anything but a literal. *)
Definition language (t : Term) : option string :=
  match t with
  | Literal _ l _ => Some l
  | _ => None
  end.

Record Quad : Type := mkQuad {
  subject : Term;
  predicate : Term;
  object : Term;
  graph : Term
}.

#[global] Instance Quad_eq_dec : EqDecision Quad.
Proof. solve_decision. Defined.

Definition triple (s p o : Term) : Quad := mkQuad s p o DefaultGraph.

(** Namespaces ([helpers/namespaces]): the two terms the host uses. *)
Definition rdf (local : string) : Term :=
  NamedNode ("http://www.w3.org/1999/02/22-rdf-syntax-ns#" ++ local).
Definition sh (local : string) : Term :=
  NamedNode ("http://www.w3.org/ns/shacl#" ++ local).

(** A dataset: quads in iteration order, without duplicates. *)
Definition Dataset : Type := list Quad.

Definition has (d : Dataset) (q : Quad) : bool := bool_decide (q ∈ d).

(** [dataset.add(quad)] / [store.addQuad(quad)]: a quad already there is
    not added again. *)
Definition add (d : Dataset) (q : Quad) : Dataset :=
  if has d q then d else d ++ [q].

(** [store.addQuads(quads)] *)
Definition addQuads (d : Dataset) (qs : list Quad) : Dataset :=
  fold_left add qs d.

(** [rdfDataset.dataset(quads)] *)
Definition dataset (qs : list Quad) : Dataset := addQuads [] qs.

Definition matches (pat : option Term) (t : Term) : bool :=
  match pat with
  | None => true
  | Some p => bool_decide (p = t)
  end.

(** [dataset.match(subject, predicate, object)], [null] as [None]. *)
Definition match_ (d : Dataset) (s p o : option Term) : Dataset :=
  List.filter
    (fun q => matches s (subject q) && matches p (predicate q)
              && matches o (object q)) d.

End Rdf.

Export Rdf(Term, NamedNode, BlankNode, Literal, DefaultGraph, Quad, mkQuad).

(** ** JavaScript strings: [split] and [join] on a one-character separator *)

Module Js.

(** [s.split(sep)]: never empty, the empty string gives one empty piece. *)
Fixpoint split (sep : ascii) (s : string) : list string :=
  match s with
  | EmptyString => [""]
  | String c rest =>
      if Ascii.eqb c sep then "" :: split sep rest
      else match split sep rest with
           | [] => [String c ""]
           | w :: ws => String c w :: ws
           end
  end.

(** [xs.join(sep)] *)
Fixpoint join (sep : ascii) (xs : list string) : string :=
  match xs with
  | [] => ""
  | [x] => x
  | x :: rest => x ++ String sep (join sep rest)
  end.

Fixpoint contains (c : ascii) (s : string) : bool :=
  match s with
  | EmptyString => false
  | String d rest => Ascii.eqb d c || contains c rest
  end.

(** Truthiness of a string: only the empty string is falsy. *)
Definition truthy (s : string) : bool :=
  match s with EmptyString => false | _ => true end.

(** [xs.includes(x)] *)
Definition includes (xs : list string) (x : string) : bool :=
  existsb (String.eqb x) xs.

(** [xs.every(p)] *)
Definition every {A} (p : A -> bool) (xs : list A) : bool := forallb p xs.

(** [new Set()] filled by [add] in a loop, read back by [values()]:
    insertion order, first occurrence kept. *)
Definition set_add (s : list string) (x : string) : list string :=
  if includes s x then s else s ++ [x].

Definition comma : ascii := ","%char.

End Js.

(** ** Pointers

    A grapoi pointer does not copy the dataset it walks: it refers to it.
    The host owns two datasets, so a pointer names one of them and carries
    its focus terms. *)

Inductive DatasetRef : Type := TheStore | TheShaclDataset.

Record GrapoiPointer : Type := mkPointer {
  ptr_dataset : DatasetRef;
  terms : list Term
}.

(** [grapoi({ dataset, factory, term })] *)
Definition grapoi (d : DatasetRef) (term : Term) : GrapoiPointer :=
  mkPointer d [term].

(** ** Outcomes of a method *)

Inductive Error : Type :=
| Error_ (message : string)       (* [throw new Error(message)] *)
| TypeError (message : string)    (* a member read on [undefined] *)
| Rejected (capability : string). (* an awaited promise that rejects *)

Inductive Outcome (A : Type) : Type :=
| Return (a : A)
| Throw (e : Error).
Arguments Return {A} a.
Arguments Throw {A} e.

Definition raises {A} (o : Outcome A) : bool :=
  match o with Return _ => false | Throw _ => true end.

(** [new Validator(dataset, { coverage, factory, details })]: the validator
    keeps the shapes it was built on. *)
Record Validator : Type := mkValidator {
  v_dataset : Rdf.Dataset;
  v_coverage : bool;
  v_details : bool
}.

(** ** The host element *)

Section Host.

(** What the class takes from its surroundings: the validation report and
    the compiled tree are values of other modules, [options] is the argument
    of the enclosing [init], and the rest are the capabilities it calls. *)
Context {Report TreeItem Options : Type}.
Variable options : Options.
(** [fetch(url).then(response => response.text())]; [None]: the request
    fails. *)
Variable fetch : string -> option string.
(** [parser.parse(text)]; [None]: the parser throws. *)
Variable parse : string -> option (list Quad).
(** [validator.validate({ dataset, terms })]; [None]: the engine fails. *)
Variable engine : Validator -> Rdf.Dataset -> list Term -> option Report.
(** [shaclTree(report, shaclDataset, options, rootShaclIri)]: it is handed
    the dataset of shapes itself, not a copy; the result comes with that
    dataset as the call leaves it. *)
Variable shaclTree :
  Report -> Rdf.Dataset -> Options -> Term -> TreeItem * Rdf.Dataset.
(** [swapSubject(store, oldSubject, newSubject)]: works on the store it is
    handed; the store after the call is its result. *)
Variable swapSubject : Rdf.Dataset -> Term -> Term -> Rdf.Dataset.

(** The properties handed to [FormLevelBase] ([form: this] is the host
    itself and [key] a constant). *)
Record FormLevelProps : Type := mkProps {
  tree : TreeItem;
  dataPointer : option GrapoiPointer;
  uiLanguagePriorities : list string
}.

(** Calls that leave the class. *)
Inductive Call : Type :=
| CallValidate (v : Validator) (dataset : Rdf.Dataset) (focus : list Term)
| CallShaclTree (report : Report) (shapes : Rdf.Dataset) (root : Term)
| CallRootRender (props : FormLevelProps).

Record ShaclForm : Type := mkShaclForm {
  (* the HTMLElement under the class *)
  classList : list string;
  attributes : gmap string string;
  ancestors : list (gmap string string);
  (* the fields of the class; [#x] is [_x] *)
  _validator : option Validator;
  _subject : Term;
  _store : Rdf.Dataset;
  _shaclDataset : Rdf.Dataset;
  shapeUris : list Term;
  _rootShaclIri : Term;
  _root : option (option FormLevelProps);
  _uiLanguagePriorities : list string;
  _data : option GrapoiPointer;
  (* the calls made so far, oldest first *)
  calls : list Call
}.

(** The field initialisers, for an element with the given attributes under
    the given ancestors. [#validator] and [#root] have none; [#data] starts
    as an empty object. *)
Definition fresh (attrs : gmap string string)
    (parents : list (gmap string string)) : ShaclForm :=
  {| classList := [];
     attributes := attrs;
     ancestors := parents;
     _validator := None;
     _subject := NamedNode "";
     _store := [];
     _shaclDataset := [];
     shapeUris := [];
     _rootShaclIri := NamedNode "";
     _root := None;
     _uiLanguagePriorities := ["*"];
     _data := None;
     calls := [] |}.

(** *** The monad of methods *)

Definition M (A : Type) : Type := ShaclForm -> Outcome A * ShaclForm.

Definition ret {A} (a : A) : M A := fun this => (Return a, this).

Definition bind {A B} (c : M A) (k : A -> M B) : M B :=
  fun this =>
    match c this with
    | (Return a, this') => k a this'
    | (Throw e, this') => (Throw e, this')
    end.

Definition throw {A} (e : Error) : M A := fun this => (Throw e, this).

(** A call whose promise nobody awaits: its outcome is kept aside and the
    caller goes on. *)
Definition attempt {A} (c : M A) : M (Outcome A) :=
  fun this => let '(o, this') := c this in (Return o, this').

Definition read {A} (f : ShaclForm -> A) : M A :=
  fun this => (Return (f this), this).

Definition write (f : ShaclForm -> ShaclForm) : M unit :=
  fun this => (Return tt, f this).

(** An awaited capability. *)
Definition await {A} (capability : string) (r : option A) : M A :=
  match r with
  | Some a => ret a
  | None => throw (Rejected capability)
  end.

Notation "x <- c ;; k" := (bind c (fun x => k))
  (at level 100, c at next level, right associativity).
Notation "c ;; k" := (bind c (fun _ => k))
  (at level 100, right associativity).

(** *** Assignments to single fields *)

Definition with_classList v (this : ShaclForm) : ShaclForm :=
  mkShaclForm v (attributes this) (ancestors this) (_validator this)
    (_subject this) (_store this) (_shaclDataset this) (shapeUris this)
    (_rootShaclIri this) (_root this) (_uiLanguagePriorities this)
    (_data this) (calls this).

Definition with_attributes v (this : ShaclForm) : ShaclForm :=
  mkShaclForm (classList this) v (ancestors this) (_validator this)
    (_subject this) (_store this) (_shaclDataset this) (shapeUris this)
    (_rootShaclIri this) (_root this) (_uiLanguagePriorities this)
    (_data this) (calls this).

Definition with_validator v (this : ShaclForm) : ShaclForm :=
  mkShaclForm (classList this) (attributes this) (ancestors this) v
    (_subject this) (_store this) (_shaclDataset this) (shapeUris this)
    (_rootShaclIri this) (_root this) (_uiLanguagePriorities this)
    (_data this) (calls this).

Definition with_subject v (this : ShaclForm) : ShaclForm :=
  mkShaclForm (classList this) (attributes this) (ancestors this)
    (_validator this) v (_store this) (_shaclDataset this) (shapeUris this)
    (_rootShaclIri this) (_root this) (_uiLanguagePriorities this)
    (_data this) (calls this).

Definition with_store v (this : ShaclForm) : ShaclForm :=
  mkShaclForm (classList this) (attributes this) (ancestors this)
    (_validator this) (_subject this) v (_shaclDataset this) (shapeUris this)
    (_rootShaclIri this) (_root this) (_uiLanguagePriorities this)
    (_data this) (calls this).

Definition with_shaclDataset v (this : ShaclForm) : ShaclForm :=
  mkShaclForm (classList this) (attributes this) (ancestors this)
    (_validator this) (_subject this) (_store this) v (shapeUris this)
    (_rootShaclIri this) (_root this) (_uiLanguagePriorities this)
    (_data this) (calls this).

Definition with_shapeUris v (this : ShaclForm) : ShaclForm :=
  mkShaclForm (classList this) (attributes this) (ancestors this)
    (_validator this) (_subject this) (_store this) (_shaclDataset this) v
    (_rootShaclIri this) (_root this) (_uiLanguagePriorities this)
    (_data this) (calls this).

Definition with_rootShaclIri v (this : ShaclForm) : ShaclForm :=
  mkShaclForm (classList this) (attributes this) (ancestors this)
    (_validator this) (_subject this) (_store this) (_shaclDataset this)
    (shapeUris this) v (_root this) (_uiLanguagePriorities this)
    (_data this) (calls this).

Definition with_root v (this : ShaclForm) : ShaclForm :=
  mkShaclForm (classList this) (attributes this) (ancestors this)
    (_validator this) (_subject this) (_store this) (_shaclDataset this)
    (shapeUris this) (_rootShaclIri this) v (_uiLanguagePriorities this)
    (_data this) (calls this).

Definition with_uiLanguagePriorities v (this : ShaclForm) : ShaclForm :=
  mkShaclForm (classList this) (attributes this) (ancestors this)
    (_validator this) (_subject this) (_store this) (_shaclDataset this)
    (shapeUris this) (_rootShaclIri this) (_root this) v
    (_data this) (calls this).

Definition with_data v (this : ShaclForm) : ShaclForm :=
  mkShaclForm (classList this) (attributes this) (ancestors this)
    (_validator this) (_subject this) (_store this) (_shaclDataset this)
    (shapeUris this) (_rootShaclIri this) (_root this)
    (_uiLanguagePriorities this) v (calls this).

Definition with_calls v (this : ShaclForm) : ShaclForm :=
  mkShaclForm (classList this) (attributes this) (ancestors this)
    (_validator this) (_subject this) (_store this) (_shaclDataset this)
    (shapeUris this) (_rootShaclIri this) (_root this)
    (_uiLanguagePriorities this) (_data this) v.

Definition log (c : Call) (this : ShaclForm) : ShaclForm :=
  with_calls (calls this ++ [c]) this.

(** The validation runs among the calls made: the dataset and the focus
    terms the validator was handed, run by run. *)
Definition validations (made : list Call)
    : list (Rdf.Dataset * list Term) :=
  omap (fun c =>
          match c with
          | CallValidate _ dataset focus => Some (dataset, focus)
          | _ => None
          end) made.

(** *** The DOM the class uses *)

(** [this.classList.add(name)] *)
Definition classList_add (name : string) : M unit :=
  write (fun this =>
    if Js.includes (classList this) name then this
    else with_classList (classList this ++ [name]) this).

(** [this.attributes.getNamedItem(name)?.value] and
    [this.getAttribute(name)]: [None] when the host has no such attribute. *)
Definition getAttribute (name : string) : M (option string) :=
  read (fun this => attributes this !! name).

(** [this.setAttribute(name, value)] *)
Definition setAttribute (name value : string) : M unit :=
  write (fun this => with_attributes (<[name := value]> (attributes this)) this).

(** [this.closest(`[name]`)]: the host itself or its nearest ancestor that
    has the attribute; [None] for [null]. *)
Definition closest (name : string) (this : ShaclForm)
    : option (gmap string string) :=
  List.find (fun element => bool_decide (is_Some (element !! name)))
    (attributes this :: ancestors this).

(** [this.closest(`[name]`)?.getAttribute(name)?.split(',') ?? []] *)
Definition closest_list (name : string) (this : ShaclForm) : list string :=
  match closest name this with
  | Some element =>
      match element !! name with
      | Some value => Js.split Js.comma value
      | None => []
      end
  | None => []
  end.

(** *** Methods of the class *)

(** [get subject ()] *)
Definition get_subject : M Term := read _subject.

(** [validate ()] *)
Definition validate : M Report :=
  validator <- read _validator ;;
  match validator with
  | None =>
      throw (TypeError "Cannot read properties of undefined (reading 'validate')")
  | Some v =>
      store <- read _store ;;
      subject <- get_subject ;;
      write (log (CallValidate v store [subject])) ;;
      await "validate" (engine v store [subject])
  end.

(** [render ()] after its [await]: the tree is compiled and handed to the
    React root. *)
Definition render_resume (report : Report) : M unit :=
  shapes <- read _shaclDataset ;;
  rootIri <- read _rootShaclIri ;;
  write (log (CallShaclTree report shapes rootIri)) ;;
  let '(tree, shapes') := shaclTree report shapes options rootIri in
  write (with_shaclDataset shapes') ;;
  root <- read _root ;;
  match root with
  | None =>
      throw (TypeError "Cannot read properties of undefined (reading 'render')")
  | Some _ =>
      data <- read _data ;;
      priorities <- read _uiLanguagePriorities ;;
      let props := mkProps tree data priorities in
      write (log (CallRootRender props)) ;;
      write (with_root (Some (Some props)))
  end.

(** [async render ()] *)
Definition render : M unit :=
  report <- validate ;;
  render_resume report.

(** [set subject (newValue)] *)
Definition set_subject (newValue : Term) : M unit :=
  store <- read _store ;;
  subject <- get_subject ;;
  write (with_store (swapSubject store subject newValue)).

(** [get shapeUri ()]; [None] is [undefined], what [shapeUris[0]] is when
    no shape was declared. *)
Definition get_shapeUri : M (option Term) :=
  givenShapeUri <- getAttribute "shape-uri" ;;
  uris <- read shapeUris ;;
  match givenShapeUri with
  | Some given =>
      if Js.truthy given then
        match List.find (fun term => String.eqb (Rdf.value term) given) uris with
        | Some foundUri => ret (Some foundUri)
        | None => throw (Error_ "Could not find the shape uri")
        end
      else ret (head uris)
  | None => ret (head uris)
  end.

(** [get contentLanguages ()] *)
Definition get_contentLanguages : M (list string) :=
  read (closest_list "content-languages").

(** [get activeContentLanguages ()] *)
Definition get_activeContentLanguages : M (list string) :=
  fun this =>
    let activeContentLanguages := closest_list "active-content-languages" this in
    if negb (Js.every
               (fun activeContentLanguage =>
                  Js.includes (closest_list "content-languages" this)
                    activeContentLanguage)
               activeContentLanguages)
    then throw (Error_ "An active language was set that is not included in the available languages.") this
    else if Nat.eqb (length activeContentLanguages) 0
         then get_contentLanguages this
         else ret activeContentLanguages this.

(** The language tags the scan of the store collects: [new Set()], then
    [add] for every quad whose object has a truthy [language]. *)
Definition scanLanguages (store : Rdf.Dataset) : list string :=
  fold_left
    (fun contentLanguages quad =>
       match Rdf.language (Rdf.object quad) with
       | Some language =>
           if Js.truthy language then Js.set_add contentLanguages language
           else contentLanguages
       | None => contentLanguages
       end)
    store [].

(** What there is to collect: a tag is observed in a store when some quad
    of it has a literal object with that tag, the tag not being empty. *)
Definition observed (store : Rdf.Dataset) (tag : string) : Prop :=
  exists q, q ∈ store /\ Rdf.language (Rdf.object q) = Some tag /\ tag <> "".

(** The same, among the statements of one subject only. *)
Definition observed_on (store : Rdf.Dataset) (subject : Term) (tag : string)
    : Prop :=
  exists q, q ∈ store /\ Rdf.subject q = subject
            /\ Rdf.language (Rdf.object q) = Some tag /\ tag <> "".

(** [async init ()] up to its first [await]: the statements that run
    inside the constructor. Its result is the URL of the shapes. *)
Definition init_sync : M string :=
  classList_add "shacl-form" ;;
  shaclUrl <- getAttribute "shacl-url" ;;
  match shaclUrl with
  | Some url =>
      if Js.truthy url then ret url
      else throw (Error_ "A shacl-url property is required. It should link to a SHACL turtle file")
  | None =>
      throw (Error_ "A shacl-url property is required. It should link to a SHACL turtle file")
  end.

(** [async init ()] from the first [await] on, block by block. *)

(** The shapes are fetched and parsed, and the validator is built on them. *)
Definition init_shapes (shaclUrl : string) : M unit :=
  shaclText <- await "fetch" (fetch shaclUrl) ;;
  shaclQuads <- await "parse" (parse shaclText) ;;
  write (with_shaclDataset (Rdf.dataset shaclQuads)) ;;
  shapes <- read _shaclDataset ;;
  write (with_validator (Some (mkValidator shapes true true))).

(** The subjects of the statements that declare a [sh:NodeShape]. *)
Definition nodeShapes (shapes : Rdf.Dataset) : list Term :=
  map Rdf.subject
    (Rdf.match_ shapes None (Some (Rdf.rdf "type")) (Some (Rdf.sh "NodeShape"))).

Definition init_shapeUris : M unit :=
  shapes <- read _shaclDataset ;;
  write (fun this => with_shapeUris (shapeUris this ++ nodeShapes shapes) this).

Definition init_rootShaclIri : M unit :=
  uris <- read shapeUris ;;
  match uris with
  | [only] => write (with_rootShaclIri only)
  | _ => ret tt
  end ;;
  shaclIri <- getAttribute "shacl-iri" ;;
  match shaclIri with
  | Some iri =>
      if Js.truthy iri then write (with_rootShaclIri (NamedNode iri)) else ret tt
  | None => ret tt
  end.

Definition init_data : M unit :=
  dataUrl <- getAttribute "data-url" ;;
  match dataUrl with
  | Some url =>
      if Js.truthy url then
        dataText <- await "fetch" (fetch url) ;;
        if Js.truthy dataText then
          dataQuads <- await "parse" (parse dataText) ;;
          write (fun this => with_store (Rdf.addQuads (_store this) dataQuads) this) ;;
          match dataQuads with
          | first :: _ => write (with_subject (Rdf.subject first))
          | [] => ret tt
          end
        else ret tt
      else ret tt
  | None => ret tt
  end.

Definition init_subject : M unit :=
  dataIri <- getAttribute "data-iri" ;;
  match dataIri with
  | Some iri => if Js.truthy iri then write (with_subject (NamedNode iri)) else ret tt
  | None => ret tt
  end.

Definition init_uiLanguagePriorities : M unit :=
  priorities <- getAttribute "ui-language-priorities" ;;
  write (with_uiLanguagePriorities
           match priorities with
           | Some value => Js.split Js.comma value
           | None => ["*"]
           end) ;;
  write (fun this =>
    with_uiLanguagePriorities (_uiLanguagePriorities this ++ ["*"]) this).

Definition init_dataPointer : M unit :=
  subject <- read _subject ;;
  write (with_data (Some (grapoi TheStore subject))).

Definition init_contentLanguages : M unit :=
  given <- getAttribute "content-languages" ;;
  match given with
  | None =>
      store <- read _store ;;
      setAttribute "content-languages" (Js.join Js.comma (scanLanguages store))
  | Some _ => ret tt
  end.

(** The [render] that [init] starts is not awaited: its call of the
    validator happens at once, the rest of it when [init] has run its last
    statement, and whether it fails does not change how [init] ends. *)
Definition init_async (shaclUrl : string) : M unit :=
  init_shapes shaclUrl ;;
  init_shapeUris ;;
  init_rootShaclIri ;;
  init_data ;;
  init_subject ;;
  init_uiLanguagePriorities ;;
  pending <- attempt validate ;;
  init_dataPointer ;;
  init_contentLanguages ;;
  match pending with
  | Return report => attempt (render_resume report) ;; ret tt
  | Throw _ => ret tt
  end.

(** [async init ()] *)
Definition init : M unit :=
  shaclUrl <- init_sync ;;
  init_async shaclUrl.

(** The documents [init] asks for arrive and parse: the shapes at
    [shacl-url], and the data at [data-url] when that attribute is given,
    where an empty data document is not parsed. *)
Definition shapes_load (attrs : gmap string string) : Prop :=
  exists url text,
    attrs !! "shacl-url" = Some url /\ url <> ""
    /\ fetch url = Some text /\ is_Some (parse text).

Definition data_loads (attrs : gmap string string) : Prop :=
  forall url, attrs !! "data-url" = Some url -> url <> "" ->
    exists text, fetch url = Some text /\ (text <> "" -> is_Some (parse text)).

Definition documents_load (attrs : gmap string string) : Prop :=
  shapes_load attrs /\ data_loads attrs.

(** [constructor ()]: [this.init()] runs up to its first [await], the React
    root is created, and the rest of [init] follows when the shapes have
    arrived. The result is how the promise of [init], which the constructor
    drops, settles. *)
Definition constructor : M (Outcome unit) :=
  started <- attempt init_sync ;;
  write (with_root (Some None)) ;;
  match started with
  | Return shaclUrl => attempt (init_async shaclUrl)
  | Throw e => ret (Throw e)
  end.

(** [new ShaclForm()] for an element with the given attributes under the
    given ancestors: the outcome of [init] and the element once [init] has
    settled. *)
Definition create (attrs : gmap string string)
    (parents : list (gmap string string)) : Outcome unit * ShaclForm :=
  let '(settled, this) := constructor (fresh attrs parents) in
  (match settled with
   | Return outcome => outcome
   | Throw e => Throw e
   end, this).

End Host.

(** ** The rename behind the subject setter *)

(** Modelled from the spec: what the rename does to one statement, "from
    old subject to new": a quad whose subject is the old term becomes the
    same quad under the new subject, any other quad stays as it is. *)
Definition renameSubject (oldSubject newSubject : Term) (quad : Quad) : Quad :=
  if bool_decide (Rdf.subject quad = oldSubject)
  then mkQuad newSubject (Rdf.predicate quad) (Rdf.object quad) (Rdf.graph quad)
  else quad.

(** Modelled from the spec: [swapSubject] of [helpers/swapSubject], which
    the class imports and whose body is not among the sources. The spec has
    a change of subject trigger "a graph-wide rewrite of statements from old
    subject to new, preserving all other triples": every statement of the
    store is renamed, and the store stays a set. *)
Definition swapSubject (store : Rdf.Dataset) (oldSubject newSubject : Term)
    : Rdf.Dataset :=
  Rdf.dataset (map (renameSubject oldSubject newSubject) store).

(** Two datasets hold the same quads, in whatever order. *)
Definition same_quads (d1 d2 : Rdf.Dataset) : Prop :=
  forall q : Quad, q ∈ d1 <-> q ∈ d2.

(** ** The pointer capability *)

Module Pointer.

(** Modelled from the spec: the navigation library behind [GrapoiPointer],
    of which the sources hold only the type. A pointer is "a navigable
    cursor over a Dataset anchored at zero or more terms"; its dataset is
    shared, so every operation runs against the dataset as it is and leaves
    it as the next operation finds it. *)
Definition Nav (A : Type) : Type := Rdf.Dataset -> A * Rdf.Dataset.

Definition ret {A} (a : A) : Nav A := fun d => (a, d).

Definition bind {A B} (c : Nav A) (k : A -> Nav B) : Nav B :=
  fun d => let '(a, d') := c d in k a d'.

Fixpoint mapM {A B} (f : A -> Nav B) (xs : list A) : Nav (list B) :=
  match xs with
  | [] => ret []
  | x :: rest =>
      bind (f x) (fun y => bind (mapM f rest) (fun ys => ret (y :: ys)))
  end.

(** Modelled from the spec: [out(predicates)], "follow outward edges,
    optionally filtered by predicate, producing a new pointer over resulting
    objects". The compiler names its predicates at every step: an edge is
    followed when its predicate is among them. *)
Definition out (predicates : list Term) (ptr : GrapoiPointer)
    : Nav GrapoiPointer :=
  fun d =>
    (mkPointer (ptr_dataset ptr)
       (flat_map
          (fun term =>
             map Rdf.object
               (List.filter
                  (fun q => bool_decide (Rdf.subject q = term)
                            && bool_decide (Rdf.predicate q ∈ predicates)) d))
          (terms ptr)),
     d).

(** Modelled from the spec: [list()], the "RDF collection traversal": the
    [rdf:first] of each cell down the [rdf:rest] chain, as far as it goes
    within the size of the dataset. *)
Fixpoint cells (fuel : nat) (d : Rdf.Dataset) (cell : Term) : list Term :=
  match fuel with
  | O => []
  | S fuel' =>
      if bool_decide (cell = Rdf.rdf "nil") then []
      else
        let objects p :=
          map Rdf.object
            (List.filter
               (fun q => bool_decide (Rdf.subject q = cell)
                         && bool_decide (Rdf.predicate q = p)) d) in
        match objects (Rdf.rdf "first"), objects (Rdf.rdf "rest") with
        | first :: _, rest :: _ => first :: cells fuel' d rest
        | first :: _, [] => [first]
        | [], _ => []
        end
  end.

(** Modelled from the spec: [list()] of a pointer, the members of the
    collections its focus terms head. *)
Definition list_ (ptr : GrapoiPointer) : Nav (list Term) :=
  fun d => (flat_map (cells (length d) d) (terms ptr), d).

End Pointer.

(** ** The shape tree compiler *)

Module Tree.

(** Modelled from the spec: the report of the validator, "sequence of
    results, each with focusNode (Term), resultPath (Term/path expression),
    severity (Violation/Warning/Info), and associated message text(s)". *)
Inductive Severity : Type := Violation | Warning | Info.

(** Modelled from the spec: one result of the report, with the four parts
    the spec lists. *)
Record Result : Type := mkResult {
  focusNode : Term;
  resultPath : Term;
  severity : Severity;
  message : list string
}.

(** Modelled from the spec: the report, a "sequence of results". *)
Definition Report : Type := list Result.

(** [_messages] of [TreeItem] in the types of the library. *)
Record Messages : Type := mkMessages {
  errors : list string;
  infos : list string;
  warnings : list string
}.

(** [TreeItem] of the types of the library. Modelled from the spec: the
    items below an item are its [children] ("one child TreeItem per
    property"), the types are terms, an alternative is the shape of a
    disjunct; the widgets belong to the widget selector and the compiler
    leaves them empty. *)
#[warnings="-register-all"]
Inductive TreeItem : Type := mkTreeItem {
  _shaclPointers : list GrapoiPointer;
  _messages : Messages;
  _pathPart : option Term;
  _types : list Term;
  _alternatives : list Term;
  _widgets : list string;
  children : list TreeItem
}.

Definition is_severity (s : Severity) (r : Result) : bool :=
  match s, severity r with
  | Violation, Violation | Warning, Warning | Info, Info => true
  | _, _ => false
  end.

(** Modelled from the spec: "Each TreeItem absorbs validation messages from
    the report whose focusNode/resultPath match its position; messages are
    partitioned by severity". *)
Definition absorb (report : Report) (pathPart : option Term) : Messages :=
  let here :=
    List.filter (fun r => bool_decide (Some (resultPath r) = pathPart)) report in
  let texts s := flat_map message (List.filter (is_severity s) here) in
  mkMessages (texts Violation) (texts Info) (texts Warning).

(** Modelled from the spec: the [order] facet, a "sort key": the number a
    literal of decimal digits writes. *)
Definition digit (c : ascii) : option nat :=
  let n := nat_of_ascii c in
  if ((48 <=? n) && (n <=? 57))%nat then Some (n - 48)%nat else None.

Fixpoint number_from (acc : nat) (s : string) : option nat :=
  match s with
  | EmptyString => Some acc
  | String c rest =>
      match digit c with
      | Some d => number_from (10 * acc + d)%nat rest
      | None => None
      end
  end.

(** Modelled from the spec: the order of a property, "when present": that
    of the first [sh:order] it has. *)
Definition orderOf (orders : list Term) : option nat :=
  match orders with
  | Literal (String c rest) _ _ :: _ => number_from 0 (String c rest)
  | _ => None
  end.

(** Modelled from the spec: "children are sorted by the order facet when
    present, else by document order in the shapes graph (stable)": a stable
    insertion by key, the items without an order after those with one. *)
Definition before (a b : option nat) : bool :=
  match a, b with
  | Some x, Some y => (x <=? y)%nat
  | Some _, None => true
  | None, Some _ => false
  | None, None => true
  end.

Fixpoint insert_by_order {A} (x : option nat * A) (sorted : list (option nat * A))
    : list (option nat * A) :=
  match sorted with
  | [] => [x]
  | y :: rest =>
      if before (fst y) (fst x) then y :: insert_by_order x rest
      else x :: y :: rest
  end.

Definition sort_by_order {A} (items : list (option nat * A)) : list A :=
  map snd (fold_left (fun sorted x => insert_by_order x sorted) items []).

(** Pointers into the shapes: at one term, and over the focus terms of
    several pointers. *)
Definition at_ (term : Term) : GrapoiPointer := mkPointer TheShaclDataset [term].

Definition over (ptrs : list GrapoiPointer) : GrapoiPointer :=
  mkPointer TheShaclDataset (flat_map terms ptrs).

Notation "x <- c ;; k" := (Pointer.bind c (fun x => k))
  (at level 100, c at next level, right associativity).

(** Modelled from the spec: the algorithm of the compiler. "Starting at the
    root shape, for each sh:property constraint, recursively resolve the
    property's node shape (directly or via sh:node/sh:or/sh:and composition),
    producing one child TreeItem per property"; a shape already on the way
    down from the root is not entered again, and the walk stops at the depth
    it was given; "when a property's shape is a disjunction (sh:or/sh:xone),
    each disjunct becomes one alternative". *)
Fixpoint compileLevel (depth : nat) (report : Report) (visited : list Term)
    (pointers : list GrapoiPointer) (pathPart : option Term)
    (alternatives : list Term) : Pointer.Nav TreeItem :=
  types <- Pointer.out [Rdf.sh "class"; Rdf.sh "targetClass"] (over pointers) ;;
  match depth with
  | O =>
      Pointer.ret
        (mkTreeItem pointers (absorb report pathPart) pathPart (terms types)
           alternatives [] [])
  | S depth' =>
      properties <- Pointer.out [Rdf.sh "property"] (over pointers) ;;
      keyed <-
        Pointer.mapM
          (fun property =>
             path <- Pointer.out [Rdf.sh "path"] (at_ property) ;;
             order <- Pointer.out [Rdf.sh "order"] (at_ property) ;;
             direct <- Pointer.out [Rdf.sh "node"] (at_ property) ;;
             orList <- Pointer.out [Rdf.sh "or"] (at_ property) ;;
             ors <- Pointer.list_ orList ;;
             andList <- Pointer.out [Rdf.sh "and"] (at_ property) ;;
             ands <- Pointer.list_ andList ;;
             xoneList <- Pointer.out [Rdf.sh "xone"] (at_ property) ;;
             xones <- Pointer.list_ xoneList ;;
             let resolved :=
               List.filter (fun shape => negb (bool_decide (shape ∈ visited)))
                 (terms direct ++ ors ++ ands) in
             child <-
               compileLevel depth' report (visited ++ resolved)
                 (at_ property :: map at_ resolved) (head (terms path))
                 (ors ++ xones) ;;
             Pointer.ret (orderOf (terms order), child))
          (terms properties) ;;
      Pointer.ret
        (mkTreeItem pointers (absorb report pathPart) pathPart (terms types)
           alternatives [] (sort_by_order keyed))
  end.

(** Modelled from the spec: the contract
    [compile(report, shapesDataset, options, rootShapeIri) → TreeItem], which
    is [shaclTree] of the class. The spec gives the options no part in the
    algorithm. The walk is given one level per statement of the shapes and one
    more. The dataset comes back with the tree, as the walk leaves it. *)
Definition compile {Options : Type} (report : Report)
    (shapesDataset : Rdf.Dataset) (options : Options) (rootShapeIri : Term)
    : TreeItem * Rdf.Dataset :=
  compileLevel (S (length shapesDataset)) report [rootShapeIri]
    [at_ rootShapeIri] None [] shapesDataset.

End Tree.

(** ** A small world to run the class in *)

Module Example.

Definition ex (local : string) : Term := NamedNode ("http://example.org/" ++ local).

(** Two documents of shapes: one declares a single node shape, the other
    two. *)
Definition one_shape : list Quad :=
  [ Rdf.triple (ex "PersonShape") (Rdf.rdf "type") (Rdf.sh "NodeShape");
    Rdf.triple (ex "PersonShape") (Rdf.sh "property") (BlankNode "name");
    Rdf.triple (BlankNode "name") (Rdf.sh "path") (ex "name") ].

Definition two_shapes : list Quad :=
  [ Rdf.triple (ex "PersonShape") (Rdf.rdf "type") (Rdf.sh "NodeShape");
    Rdf.triple (ex "PlaceShape") (Rdf.rdf "type") (Rdf.sh "NodeShape") ].

(** A document of data about two subjects, each with a name in a language
    of its own. *)
Definition people : list Quad :=
  [ Rdf.triple (ex "anna") (ex "name") (Literal "Anna" "en" "rdf:langString");
    Rdf.triple (ex "bernd") (ex "name") (Literal "Bernd" "de" "rdf:langString") ].

Definition fetch (url : string) : option string :=
  if String.eqb url "one.ttl" then Some "one"
  else if String.eqb url "two.ttl" then Some "two"
  else if String.eqb url "people.ttl" then Some "people"
  else None.

Definition parse (text : string) : option (list Quad) :=
  if String.eqb text "one" then Some one_shape
  else if String.eqb text "two" then Some two_shapes
  else if String.eqb text "people" then Some people
  else None.

(** A validator that finds nothing to report. *)
Definition engine (v : Validator) (dataset : Rdf.Dataset) (focus : list Term)
    : option Tree.Report :=
  Some [].

Definition create (attrs : gmap string string)
    : Outcome unit * @ShaclForm Tree.Report Tree.TreeItem :=
  create tt fetch parse engine Tree.compile attrs [].

(** The attributes of three hosts. *)
Definition one_shape_host : gmap string string :=
  {[ "shacl-url" := "one.ttl" ]}.

Definition two_shapes_host : gmap string string :=
  {[ "shacl-url" := "two.ttl" ]}.

Definition people_host : gmap string string :=
  <[ "data-url" := "people.ttl" ]> {[ "shacl-url" := "one.ttl" ]}.

End Example.

(** ** What [init] loads *)

(** The quads of the data document as [init] comes to parse it: those of the
    document at [data-url], when the attribute is given and not empty and
    the document is not empty; [None] when nothing is parsed. *)
Definition dataDocument (fetch : string -> option string)
    (parse : string -> option (list Quad)) (attrs : gmap string string)
    : option (list Quad) :=
  match attrs !! "data-url" with
  | Some url =>
      if Js.truthy url then
        match fetch url with
        | Some text => if Js.truthy text then parse text else None
        | None => None
        end
      else None
  | None => None
  end.

(** ** The language tabs *)

Module LanguageTabs.

(** [s.split(/\/|#/g)]: the pieces between the characters the pattern
    matches; like [split], never empty. *)
Fixpoint split_where (separates : ascii -> bool) (s : string) : list string :=
  match s with
  | EmptyString => [""]
  | String c rest =>
      if separates c then "" :: split_where separates rest
      else match split_where separates rest with
           | [] => [String c ""]
           | w :: ws => String c w :: ws
           end
  end.

(** The pattern [/\/|#/]: a slash or a hash. *)
Definition slash_or_hash (c : ascii) : bool :=
  Ascii.eqb c "/"%char || Ascii.eqb c "#"%char.

(** [groupPointer?.term?.value.split(/\/|#/g).pop() ?? ''], from
    [groupPointer?.term]: [None] when the pointer or its term is undefined. *)
Definition machineName (term : option Term) : string :=
  match term with
  | Some t =>
      match last (split_where slash_or_hash (Rdf.value t)) with
      | Some piece => piece
      | None => ""
      end
  | None => ""
  end.

(** [[...new Set(items)]]: the items in the order they come, each once. *)
Definition new_Set (items : list string) : list string :=
  fold_left Js.set_add items [].

(** [[...new Set([...form.contentLanguages, languageCode])]], the list the
    picker assigns to the content languages when a language is picked. *)
Definition withLanguage (contentLanguages : list string) (languageCode : string)
    : list string :=
  new_Set (contentLanguages ++ [languageCode]).

(** What varies in the elements the component returns: the class of the
    group, the header, one tab per content language, and whether the picker
    is shown in place of the button that opens it. Of a tab: its key, the
    class of its link, its label, and whether it has the button that removes
    the language. *)
Record Tab : Type := mkTab {
  key : string;
  linkClass : string;
  label : option string;
  removeButton : bool
}.

Record View : Type := mkView {
  className : string;
  header : option string;
  tabs : list Tab;
  picker : bool
}.

Section Component.

Context {Report TreeItem : Type}.
(** [bestLanguage(groupPointer.out([rdfs('label')]), form.uiLanguagePriorities)] *)
Variable name : option string.
(** [groupPointer?.term] *)
Variable term : option Term.
(** The state of the component: [showLanguagePicker], and the [label] of
    each tab, [null] until the picker has answered. *)
Variable showLanguagePicker : bool.
Variable labels : string -> option string.

Definition mapM {A B} (f : A -> @M Report TreeItem B) (xs : list A)
    : M (list B) :=
  fold_right
    (fun x rest => bind (f x) (fun y => bind rest (fun ys => ret (y :: ys))))
    (ret []) xs.

(** The callback of [form.contentLanguages.map]: one [li]. *)
Definition tab (languageCode : string) : @M Report TreeItem Tab :=
  bind get_activeContentLanguages (fun activeContentLanguages =>
  bind get_contentLanguages (fun contentLanguages =>
  ret (mkTab languageCode
         ("nav-link " ++
          (if Js.includes activeContentLanguages languageCode then "active"
           else ""))
         (labels languageCode)
         (1 <? length contentLanguages)%nat))).

(** [LanguageTabs({ children, form, groupPointer })], [form] being the host. *)
Definition LanguageTabs : @M Report TreeItem View :=
  bind get_contentLanguages (fun contentLanguages =>
  bind (mapM tab contentLanguages) (fun items =>
  ret (mkView
         ("group group-language-tabs " ++ machineName term)
         (match name with
          | Some text => if Js.truthy text then Some text else None
          | None => None
          end)
         items
         showLanguagePicker))).

End Component.

End LanguageTabs.

(** ** More hosts to run the class in *)

Module Hosts.

(** The host of the people, told to edit another subject. *)
Definition carla_host : gmap string string :=
  <[ "data-iri" := "http://example.org/carla" ]> Example.people_host.

(** The host of the one shape, told to use a root that is not declared. *)
Definition other_root_host : gmap string string :=
  <[ "shacl-iri" := "http://example.org/OtherShape" ]> Example.one_shape_host.

(** The host of the two shapes, asked for the second of them. *)
Definition place_host : gmap string string :=
  <[ "shape-uri" := "http://example.org/PlaceShape" ]> Example.two_shapes_host.

(** The element the people's host is once [init] has settled. *)
Definition loaded : @ShaclForm Tree.Report Tree.TreeItem :=
  snd (Example.create Example.people_host).

(** The language tabs of a group, no label having arrived yet. *)
Definition tabs (this : @ShaclForm Tree.Report Tree.TreeItem)
    : Outcome LanguageTabs.View * @ShaclForm Tree.Report Tree.TreeItem :=
  LanguageTabs.LanguageTabs (Some "Names") (Some (Example.ex "names")) false
    (fun _ => None) this.

End Hosts.

(** ** Running a method by hand *)

Ltac run :=
  repeat (progress (unfold bind, read, write, ret, throw, attempt, await,
                      getAttribute, setAttribute, log; simpl)).

(** * Properties *)

(** ** Strings and string sets *)

Lemma includes_elem_of (xs : list string) (x : string) :
  Js.includes xs x = true <-> x ∈ xs.
Proof.
  unfold Js.includes. rewrite existsb_exists. split.
  - intros (y & Hin & Heq). apply String.eqb_eq in Heq. subst.
    by apply list_elem_of_In.
  - intros Hin. exists x. split; [by apply list_elem_of_In | apply String.eqb_refl].
Qed.

Lemma includes_false (xs : list string) (x : string) :
  Js.includes xs x = false <-> x ∉ xs.
Proof.
  rewrite <- includes_elem_of. destruct (Js.includes xs x); naive_solver.
Qed.

Lemma every_includes (content active : list string) :
  Js.every (fun a => Js.includes content a) active = true
  <-> (forall t, t ∈ active -> t ∈ content).
Proof.
  unfold Js.every. rewrite forallb_forall. split.
  - intros H t Ht. apply includes_elem_of, H. by apply list_elem_of_In.
  - intros H t Ht. apply includes_elem_of, H. by apply list_elem_of_In.
Qed.

Lemma every_false {A} (p : A -> bool) (xs : list A) :
  Js.every p xs = false <-> exists x, x ∈ xs /\ p x = false.
Proof.
  unfold Js.every. induction xs as [|x rest IH]; simpl.
  - split; [done|]. intros (x & H & _). by apply elem_of_nil in H.
  - rewrite andb_false_iff, IH. split.
    + intros [H|(y & Hin & Hy)]; [exists x|exists y]; split; try done;
        [by left|by right].
    + intros (y & Hin & Hy). apply elem_of_cons in Hin as [->|Hin]; [by left|].
      right. by exists y.
Qed.

Lemma split_not_nil (sep : ascii) (s : string) : Js.split sep s <> [].
Proof.
  destruct s as [|c rest]; simpl; [done|].
  destruct (Ascii.eqb c sep); [done|]. by destruct (Js.split sep rest).
Qed.

Lemma split_no_separator (sep : ascii) (s : string) :
  Js.contains sep s = false -> Js.split sep s = [s].
Proof.
  induction s as [|c rest IH]; simpl; [done|].
  intros H. apply orb_false_iff in H as [Hc Hrest].
  rewrite Hc, (IH Hrest). done.
Qed.

Lemma split_append (sep : ascii) (x rest : string) :
  Js.contains sep x = false ->
  Js.split sep (x ++ String sep rest)%string = x :: Js.split sep rest.
Proof.
  induction x as [|c x IH]; simpl; intros H.
  - by rewrite Ascii.eqb_refl.
  - apply orb_false_iff in H as [Hc Hx]. rewrite Hc, (IH Hx). done.
Qed.

(** [split] undoes [join] on a list that is not empty and whose pieces hold
    no separator. *)
Lemma split_join (sep : ascii) (xs : list string) :
  xs <> [] ->
  (forall x, x ∈ xs -> Js.contains sep x = false) ->
  Js.split sep (Js.join sep xs) = xs.
Proof.
  induction xs as [|x rest IH]; [done|]. intros _ Hall.
  destruct rest as [|y rest].
  - simpl. apply split_no_separator, Hall. by left.
  - change (Js.join sep (x :: y :: rest))
      with (x ++ String sep (Js.join sep (y :: rest)))%string.
    rewrite split_append by (apply Hall; by left).
    f_equal. apply IH; [done|]. intros z Hz. apply Hall. by right.
Qed.

Lemma truthy_nonempty (s : string) : Js.truthy s = true <-> s <> "".
Proof. destruct s; simpl; split; done. Qed.

Lemma set_add_elem_of (s : list string) (x y : string) :
  y ∈ Js.set_add s x <-> y ∈ s \/ y = x.
Proof.
  unfold Js.set_add. destruct (Js.includes s x) eqn:E.
  - apply includes_elem_of in E. split; [by left|]. intros [H| ->]; done.
  - rewrite elem_of_app, list_elem_of_singleton. done.
Qed.

Lemma scan_step_elem_of (acc : list string) (store : Rdf.Dataset) (tag : string) :
  tag ∈ fold_left
          (fun contentLanguages quad =>
             match Rdf.language (Rdf.object quad) with
             | Some language =>
                 if Js.truthy language then Js.set_add contentLanguages language
                 else contentLanguages
             | None => contentLanguages
             end) store acc
  <-> tag ∈ acc \/ observed store tag.
Proof.
  revert acc. induction store as [|q store IH]; intros acc; simpl.
  - split; [by left|]. intros [H|(q & Hq & _)]; [done|]. by apply elem_of_nil in Hq.
  - rewrite IH. clear IH. unfold observed. split.
    + intros [H|(q' & Hq' & Hl & Hne)].
      * destruct (Rdf.language (Rdf.object q)) as [l|] eqn:El; [|by left].
        destruct (Js.truthy l) eqn:Et; [|by left].
        apply set_add_elem_of in H as [H| ->]; [by left|].
        right. exists q. split; [by left|]. split; [done|].
        by apply truthy_nonempty.
      * right. exists q'. split; [by right|done].
    + intros [H|(q' & Hq' & Hl & Hne)].
      * left. destruct (Rdf.language (Rdf.object q)) as [l|]; [|done].
        destruct (Js.truthy l); [|done]. apply set_add_elem_of. by left.
      * apply elem_of_cons in Hq' as [->|Hq'].
        -- left. rewrite Hl. apply truthy_nonempty in Hne. rewrite Hne.
           apply set_add_elem_of. by right.
        -- right. exists q'. done.
Qed.

Lemma scanLanguages_elem_of (store : Rdf.Dataset) (tag : string) :
  tag ∈ scanLanguages store <-> observed store tag.
Proof.
  unfold scanLanguages. rewrite scan_step_elem_of. split; [|by right].
  intros [H|H]; [|done]. by apply elem_of_nil in H.
Qed.

(** ** The host element *)

Section HostFacts.

Context {Report TreeItem Options : Type}.
Variable options : Options.
Variable fetch : string -> option string.
Variable parse : string -> option (list Quad).
Variable engine : Validator -> Rdf.Dataset -> list Term -> option Report.
Variable shaclTree :
  Report -> Rdf.Dataset -> Options -> Term -> TreeItem * Rdf.Dataset.
Variable swapSubject : Rdf.Dataset -> Term -> Term -> Rdf.Dataset.

Local Abbreviation Form := (@ShaclForm Report TreeItem).

(** *** [closest] and the attributes *)

Lemma closest_list_nil (name : string) (this : Form) :
  closest_list name this = [] <-> closest name this = None.
Proof.
  unfold closest_list. destruct (closest name this) as [element|] eqn:E; [|done].
  split; [|done]. unfold closest in E. apply find_some in E as [_ E].
  apply bool_decide_eq_true in E as [value E]. rewrite E.
  intros H. by apply split_not_nil in H.
Qed.

Lemma closest_self (name value : string) (this : Form) :
  attributes this !! name = Some value ->
  closest_list name this = Js.split Js.comma value.
Proof.
  intros H. unfold closest_list, closest. simpl.
  rewrite bool_decide_eq_true_2 by (by rewrite H). by rewrite H.
Qed.

Lemma closest_setAttribute (name value : string) (this : Form) :
  closest_list name (snd (setAttribute name value this))
  = Js.split Js.comma value.
Proof. apply closest_self. simpl. apply lookup_insert_eq. Qed.

Lemma closest_setAttribute_other (name other value : string) (this : Form) :
  name <> other ->
  closest_list other (snd (setAttribute name value this))
  = closest_list other this.
Proof.
  intros Hne. unfold closest_list, closest. simpl.
  rewrite lookup_insert_ne by done.
  destruct (bool_decide (is_Some (attributes this !! other))); [|done].
  by rewrite lookup_insert_ne.
Qed.

(** *** The getters *)

(** The getters read: they leave the element as it is. *)
Lemma get_activeContentLanguages_pure (this : Form) :
  snd (get_activeContentLanguages this) = this.
Proof.
  unfold get_activeContentLanguages.
  destruct (negb _); [done|]. by destruct (Nat.eqb _ _).
Qed.

(** C2, as the class has it. For every configuration, reading
    [activeContentLanguages] raises the configuration error when some active
    tag is not among [contentLanguages], and returns when every active tag
    is; the element is left as it is. The check is made on reading. The
    class has no setter for the active tags: they are the pieces of the
    [active-content-languages] attribute, and setting that attribute on the
    host raises nothing, whatever the value; it is the read after it that
    raises, exactly when a piece of the value is not among
    [contentLanguages]. *)
Theorem activeContentLanguages_guard (this : Form) :
  let active := closest_list "active-content-languages" this in
  let content := closest_list "content-languages" this in
  let message :=
    "An active language was set that is not included in the available languages." in
  ((exists t, t ∈ active /\ t ∉ content) ->
   get_activeContentLanguages this = (Throw (Error_ message), this))
  /\ ((forall t, t ∈ active -> t ∈ content) ->
      exists languages, get_activeContentLanguages this = (Return languages, this))
  /\ (forall value : string,
        let this' := snd (setAttribute "active-content-languages" value this) in
        fst (setAttribute "active-content-languages" value this) = Return tt
        /\ closest_list "content-languages" this' = content
        /\ (raises (fst (get_activeContentLanguages this')) = true
            <-> exists t, t ∈ Js.split Js.comma value /\ t ∉ content)).
Proof.
  assert (Hguard : forall that : Form,
    (exists t, t ∈ closest_list "active-content-languages" that
               /\ t ∉ closest_list "content-languages" that)
    <-> Js.every
          (fun a => Js.includes (closest_list "content-languages" that) a)
          (closest_list "active-content-languages" that) = false).
  { intros that. split.
    - intros (t & Hin & Hout). apply not_true_iff_false.
      rewrite every_includes. intros H. by apply Hout, H.
    - intros H. apply every_false in H as (t & Hin & Hout).
      exists t. split; [done|]. by apply includes_false. }
  cbv zeta. split; [|split].
  - intros H. apply Hguard in H. unfold get_activeContentLanguages.
    by rewrite H.
  - intros H. apply every_includes in H. unfold get_activeContentLanguages.
    rewrite H. simpl. destruct (Nat.eqb _ _); eauto.
  - intros value. split; [done|]. split.
    + by apply closest_setAttribute_other.
    + pose proof (Hguard (snd (setAttribute "active-content-languages" value this)))
        as H.
      rewrite closest_setAttribute in H.
      rewrite closest_setAttribute_other in H by done.
      rewrite H. unfold get_activeContentLanguages.
      rewrite closest_setAttribute, closest_setAttribute_other by done.
      destruct (Js.every _ _); simpl; [|done].
      destruct (Nat.eqb _ _); done.
Qed.

(** C10. When the resolved active tags are empty, reading
    [activeContentLanguages] returns [contentLanguages], with no error. *)
Theorem activeContentLanguages_default (this : Form) :
  closest_list "active-content-languages" this = [] ->
  get_activeContentLanguages this
  = (Return (closest_list "content-languages" this), this).
Proof.
  intros H. unfold get_activeContentLanguages. rewrite H. done.
Qed.

(** The active tags resolve to nothing exactly when neither the host nor an
    ancestor has the attribute. *)
Lemma activeContentLanguages_absent (this : Form) :
  closest_list "active-content-languages" this = []
  <-> Forall (fun element => element !! "active-content-languages" = None)
        (attributes this :: ancestors this).
Proof.
  rewrite closest_list_nil. unfold closest.
  generalize (attributes this :: ancestors this). intros elements.
  induction elements as [|element rest IH]; simpl.
  - split; [constructor|done].
  - destruct (element !! "active-content-languages") as [v|] eqn:E.
    + rewrite bool_decide_eq_true_2 by eauto. split; [done|].
      intros H. apply Forall_cons in H as [H _]. simpl in H. congruence.
    + rewrite bool_decide_eq_false_2 by (intros [? ?]; done).
      rewrite IH. split; [by constructor|]. intros H.
      by apply Forall_cons in H as [_ H].
Qed.

(** C5. A requested shape URI that names none of the declared shapes makes
    reading [shapeUri] throw; with no request the first declared shape is
    returned. *)
Theorem shapeUri_lookup (this : Form) :
  (forall given : string,
     attributes this !! "shape-uri" = Some given -> given <> "" ->
     (forall term, term ∈ shapeUris this -> Rdf.value term <> given) ->
     get_shapeUri this = (Throw (Error_ "Could not find the shape uri"), this))
  /\ ((attributes this !! "shape-uri" = None
       \/ attributes this !! "shape-uri" = Some "") ->
      get_shapeUri this = (Return (head (shapeUris this)), this)
      /\ forall first rest, shapeUris this = first :: rest ->
           get_shapeUri this = (Return (Some first), this)).
Proof.
  split.
  - intros given Hattr Hne Hnone.
    unfold get_shapeUri, bind, getAttribute, read. simpl. rewrite Hattr.
    apply truthy_nonempty in Hne. rewrite Hne.
    destruct (List.find _ _) as [found|] eqn:E; [|done].
    apply find_some in E as [Hin Heq]. apply String.eqb_eq in Heq.
    exfalso. apply (Hnone found); [by apply list_elem_of_In|done].
  - intros Hattr.
    assert (get_shapeUri this = (Return (head (shapeUris this)), this)) as Hget.
    { unfold get_shapeUri, bind, getAttribute, read. simpl.
      destruct Hattr as [-> | ->]; done. }
    split; [done|]. intros first rest Huris. by rewrite Hget, Huris.
Qed.

(** A requested shape that is declared is the one returned: the first whose
    value is the requested one. *)
Lemma shapeUri_found (this : Form) (given : string) (term : Term) :
  attributes this !! "shape-uri" = Some given -> given <> "" ->
  term ∈ shapeUris this -> Rdf.value term = given ->
  exists found, get_shapeUri this = (Return (Some found), this)
                /\ found ∈ shapeUris this /\ Rdf.value found = given.
Proof.
  intros Hattr Hne Hin Hval.
  unfold get_shapeUri, bind, getAttribute, read. simpl. rewrite Hattr.
  apply truthy_nonempty in Hne. rewrite Hne.
  destruct (List.find _ _) as [found|] eqn:E.
  - apply find_some in E as [Hfound Heq]. apply String.eqb_eq in Heq.
    exists found. split; [done|]. split; [by apply list_elem_of_In|done].
  - exfalso. apply list_elem_of_In in Hin.
    pose proof (find_none _ _ E term Hin) as Hno. simpl in Hno.
    rewrite Hval, String.eqb_refl in Hno. done.
Qed.

(** *** The subject *)

(** C9. The subject setter hands the store to the rename and stores its
    result; the field holding the subject, and every other field, stays, so
    the getter still returns the previous subject. *)
Theorem set_subject_keeps_subject (this : Form) (newValue : Term) :
  let after := snd (set_subject swapSubject newValue this) in
  fst (set_subject swapSubject newValue this) = Return tt
  /\ get_subject after = (Return (_subject this), after)
  /\ after = with_store (swapSubject (_store this) (_subject this) newValue) this.
Proof. done. Qed.

(** *** Initialisation, block by block *)

Lemma init_sync_run (this : Form) :
  exists names,
    snd (init_sync this) = with_classList names this
    /\ forall url, fst (init_sync this) = Return url ->
         attributes this !! "shacl-url" = Some url /\ url <> "".
Proof.
  unfold init_sync, classList_add. run.
  destruct (Js.includes (classList this) "shacl-form"); simpl.
  - exists (classList this). destruct (attributes this !! "shacl-url") as [url|].
    + destruct url as [|c url]; simpl; (split; [by destruct this|]);
        intros ? [= <-]; done.
    + split; [by destruct this|]. intros ? [=].
  - exists (classList this ++ ["shacl-form"]).
    destruct (attributes this !! "shacl-url") as [url|].
    + destruct url as [|c url]; simpl; (split; [done|]); intros ? [= <-]; done.
    + split; [done|]. intros ? [=].
Qed.

Lemma init_shapes_run (shaclUrl : string) (this : Form) :
  fst (init_shapes fetch parse shaclUrl this) = Return tt ->
  exists text quads,
    fetch shaclUrl = Some text /\ parse text = Some quads
    /\ snd (init_shapes fetch parse shaclUrl this)
       = with_validator (Some (mkValidator (Rdf.dataset quads) true true))
           (with_shaclDataset (Rdf.dataset quads) this).
Proof.
  unfold init_shapes. run.
  destruct (fetch shaclUrl) as [text|]; run; [|done].
  destruct (parse text) as [quads|] eqn:E; run; [|done].
  intros _. by exists text, quads.
Qed.

Lemma init_shapeUris_run (this : Form) :
  init_shapeUris this
  = (Return tt,
     with_shapeUris (shapeUris this ++ nodeShapes (_shaclDataset this)) this).
Proof. done. Qed.

Lemma init_rootShaclIri_run (this : Form) :
  init_rootShaclIri this
  = (Return tt,
     with_rootShaclIri
       (let inferred :=
          match shapeUris this with
          | [only] => only
          | _ => _rootShaclIri this
          end in
        match attributes this !! "shacl-iri" with
        | Some iri => if Js.truthy iri then NamedNode iri else inferred
        | None => inferred
        end) this).
Proof.
  unfold init_rootShaclIri. run.
  destruct (shapeUris this) as [|only [|]]; simpl;
    (destruct (attributes this !! "shacl-iri") as [iri|];
     [destruct (Js.truthy iri)|]); simpl; by destruct this.
Qed.

Lemma init_data_run (this : Form) :
  exists store subject,
    snd (init_data fetch parse this) = with_subject subject (with_store store this)
    /\ (fst (init_data fetch parse this) = Return tt
        <-> data_loads fetch parse (attributes this)).
Proof.
  unfold init_data, data_loads. run.
  assert (this = with_subject (_subject this) (with_store (_store this) this))
    as Hsame by (by destruct this).
  destruct (attributes this !! "data-url") as [url|]; run.
  2: { eexists _, _. split; [exact Hsame|]. split; [done|done]. }
  destruct (Js.truthy url) eqn:Eurl; run.
  2: { eexists _, _. split; [exact Hsame|]. split; [|done].
       intros _ ? [= <-] Hne. apply truthy_nonempty in Hne. congruence. }
  destruct (fetch url) as [text|] eqn:Efetch; run.
  2: { eexists _, _. split; [exact Hsame|]. split; [done|].
       intros H. destruct (H url eq_refl) as (text & Htext & _);
         [by apply truthy_nonempty|]. congruence. }
  destruct (Js.truthy text) eqn:Etext; run.
  2: { eexists _, _. split; [exact Hsame|]. split; [|done].
       intros _ ? [= <-] _. exists text. split; [done|].
       intros Hne. apply truthy_nonempty in Hne. congruence. }
  destruct (parse text) as [quads|] eqn:Eparse; run.
  2: { eexists _, _. split; [exact Hsame|]. split; [done|].
       intros H. destruct (H url eq_refl) as (text' & Htext & Hparse);
         [by apply truthy_nonempty|].
       assert (text' = text) as -> by congruence.
       destruct Hparse as [? ?]; [by apply truthy_nonempty|]. congruence. }
  destruct quads as [|first rest]; run.
  - exists (Rdf.addQuads (_store this) []), (_subject this).
    split; [by destruct this|]. split; [|done].
    intros _ ? [= <-] _. exists text. split; [done|]. intros _.
    rewrite Eparse. eauto.
  - eexists _, _. split; [done|]. split; [|done].
    intros _ ? [= <-] _. exists text. split; [done|]. intros _.
    rewrite Eparse. eauto.
Qed.

Lemma init_subject_run (this : Form) :
  exists subject,
    init_subject this = (Return tt, with_subject subject this).
Proof.
  unfold init_subject. run.
  destruct (attributes this !! "data-iri") as [iri|];
    [destruct (Js.truthy iri)|]; simpl;
    solve [ eexists; reflexivity | exists (_subject this); by destruct this ].
Qed.

Lemma init_uiLanguagePriorities_run (this : Form) :
  init_uiLanguagePriorities this
  = (Return tt,
     with_uiLanguagePriorities
       (match attributes this !! "ui-language-priorities" with
        | Some value => Js.split Js.comma value
        | None => ["*"]
        end ++ ["*"]) this).
Proof. done. Qed.

Lemma validate_run (this : Form) :
  snd (validate engine this)
  = match _validator this with
    | Some v => log (CallValidate v (_store this) [_subject this]) this
    | None => this
    end.
Proof.
  unfold validate, get_subject. run.
  destruct (_validator this) as [v|]; run; [|done].
  by destruct (engine v (_store this) [_subject this]).
Qed.

Lemma init_dataPointer_run (this : Form) :
  init_dataPointer this
  = (Return tt, with_data (Some (grapoi TheStore (_subject this))) this).
Proof. done. Qed.

Lemma init_contentLanguages_run (this : Form) :
  init_contentLanguages this
  = (Return tt,
     match attributes this !! "content-languages" with
     | None =>
         with_attributes
           (<["content-languages" :=
                Js.join Js.comma (scanLanguages (_store this))]>
              (attributes this)) this
     | Some _ => this
     end).
Proof.
  unfold init_contentLanguages. run.
  by destruct (attributes this !! "content-languages").
Qed.

Lemma render_resume_run (report : Report) (this : Form) :
  exists shapes root extra,
    snd (render_resume options shaclTree report this)
    = with_root root
        (with_calls (calls this ++ extra) (with_shaclDataset shapes this))
    /\ validations extra = [].
Proof.
  unfold render_resume. run.
  destruct (shaclTree report (_shaclDataset this) options (_rootShaclIri this))
    as [tree shapes']. run.
  destruct (_root this) as [shown|] eqn:E; run.
  - eexists _, _, [_; _]. rewrite <- app_assoc. done.
  - exists shapes', None,
      [CallShaclTree report (_shaclDataset this) (_rootShaclIri this)].
    unfold with_root, with_calls, with_shaclDataset. simpl. by rewrite E.
Qed.

(** *** Initialisation as a whole *)

Lemma bind_returns {A B} (c : @M Report TreeItem A) (k : A -> M B)
    (this final : Form) (b : B) :
  bind c k this = (Return b, final) ->
  exists a that, c this = (Return a, that) /\ k a that = (Return b, final).
Proof.
  unfold bind. destruct (c this) as [[a|e] that]; [|done]. eauto.
Qed.

Lemma bind_run {A B} (c : @M Report TreeItem A) (k : A -> M B)
    (this that : Form) (a : A) :
  c this = (Return a, that) -> bind c k this = k a that.
Proof. unfold bind. by intros ->. Qed.

Lemma attempt_run {A} (c : @M Report TreeItem A) (this : Form) :
  attempt c this = (Return (fst (c this)), snd (c this)).
Proof. unfold attempt. by destruct (c this). Qed.

(** The last block of [init]: the render it started goes on, and [init]
    ends well whatever becomes of it. *)
Lemma init_resume_run (pending : Outcome Report) (this : Form) :
  exists shapes root extra,
    match pending with
    | Return report =>
        bind (attempt (render_resume options shaclTree report))
          (fun _ => ret tt)
    | Throw _ => ret tt
    end this
    = (Return tt,
       with_root root
         (with_calls (calls this ++ extra) (with_shaclDataset shapes this)))
    /\ validations extra = [].
Proof.
  destruct pending as [report|e].
  - destruct (render_resume_run report this) as (shapes & root & extra & H & Hno).
    exists shapes, root, extra. split; [|done].
    rewrite (bind_run _ _ _ _ _ (attempt_run _ _)). by rewrite H.
  - exists (_shaclDataset this), (_root this), []. split; [|done].
    rewrite app_nil_r. by destruct this.
Qed.

(** Where [init] returns, this is the element it leaves. *)
Lemma init_returns (this final : Form) :
  init options fetch parse engine shaclTree this = (Return tt, final) ->
  exists url text quads,
    attributes this !! "shacl-url" = Some url /\ url <> ""
    /\ fetch url = Some text /\ parse text = Some quads
    /\ data_loads fetch parse (attributes this)
    /\ shapeUris final = shapeUris this ++ nodeShapes (Rdf.dataset quads)
    /\ _rootShaclIri final
       = (let inferred :=
            match shapeUris final with
            | [only] => only
            | _ => _rootShaclIri this
            end in
          match attributes this !! "shacl-iri" with
          | Some iri => if Js.truthy iri then NamedNode iri else inferred
          | None => inferred
          end)
    /\ _uiLanguagePriorities final
       = match attributes this !! "ui-language-priorities" with
         | Some value => Js.split Js.comma value
         | None => ["*"]
         end ++ ["*"]
    /\ attributes final
       = match attributes this !! "content-languages" with
         | None =>
             <["content-languages" :=
                 Js.join Js.comma (scanLanguages (_store final))]>
               (attributes this)
         | Some _ => attributes this
         end
    /\ ancestors final = ancestors this
    /\ validations (calls final)
       = validations (calls this) ++ [(_store final, [_subject final])].
Proof.
  intros H. unfold init in H.
  apply bind_returns in H as (url & s1 & H1 & H).
  destruct (init_sync_run this) as (names & Hs1 & Hurl).
  rewrite H1 in Hs1, Hurl. simpl in Hs1. subst s1.
  destruct (Hurl url eq_refl) as [Hattr Hne]. clear Hurl H1.
  unfold init_async in H.
  apply bind_returns in H as ([] & s2 & H2 & H).
  pose proof (init_shapes_run url (with_classList names this)) as Hs2.
  rewrite H2 in Hs2. simpl in Hs2.
  destruct (Hs2 eq_refl) as (text & quads & Hf & Hp & ->). clear Hs2 H2.
  apply bind_returns in H as ([] & s3 & H3 & H).
  rewrite init_shapeUris_run in H3. injection H3 as <-.
  apply bind_returns in H as ([] & s4 & H4 & H).
  rewrite init_rootShaclIri_run in H4. injection H4 as <-.
  apply bind_returns in H as ([] & s5 & H5 & H).
  match type of H5 with init_data _ _ ?s = _ =>
    destruct (init_data_run s) as (store & subject & Hs5 & Hdata) end.
  rewrite H5 in Hs5, Hdata. simpl in Hs5, Hdata. subst s5.
  apply proj1 in Hdata. specialize (Hdata eq_refl). clear H5.
  apply bind_returns in H as ([] & s6 & H6 & H).
  match type of H6 with init_subject ?s = _ =>
    destruct (init_subject_run s) as (subject' & Hs6) end.
  rewrite H6 in Hs6. injection Hs6 as ->. clear H6.
  apply bind_returns in H as ([] & s7 & H7 & H).
  rewrite init_uiLanguagePriorities_run in H7. injection H7 as <-.
  apply bind_returns in H as (pending & s8 & H8 & H).
  rewrite attempt_run in H8. injection H8 as Hpending Hs8.
  rewrite validate_run in Hs8. simpl in Hs8. subst s8. clear Hpending.
  apply bind_returns in H as ([] & s9 & H9 & H).
  rewrite init_dataPointer_run in H9. injection H9 as <-.
  apply bind_returns in H as ([] & s10 & H10 & H).
  rewrite init_contentLanguages_run in H10. injection H10 as <-.
  match type of H with _ ?s = _ =>
    destruct (init_resume_run pending s)
      as (shapes & root & extra & Hend & Hextra) end.
  rewrite Hend in H. injection H as <-. clear Hend.
  exists url, text, quads. simpl in *.
  repeat (split; [done|]).
  destruct (attributes this !! "content-languages"); simpl;
    (split; [done|]); (split; [done|]);
    unfold validations in *; rewrite !omap_app, Hextra, app_nil_r; done.
Qed.

(** [init] ends well exactly when the documents load; nothing else makes it
    throw. *)
Lemma init_completes (this : Form) :
  fst (init options fetch parse engine shaclTree this) = Return tt
  <-> documents_load fetch parse (attributes this).
Proof.
  split.
  - destruct (init options fetch parse engine shaclTree this) as [[[]|e] final]
      eqn:E; [|done].
    intros _. apply init_returns in E
      as (url & text & quads & Hattr & Hne & Hf & Hp & Hdata & _).
    split; [|done]. exists url, text. rewrite Hp. eauto.
  - intros [(url & text & Hattr & Hne & Hf & quads & Hp) Hdata].
    unfold init.
    assert (init_sync this = (Return url, snd (init_sync this))) as H1.
    { unfold init_sync, classList_add. run. apply truthy_nonempty in Hne.
      destruct (Js.includes _ _); simpl; rewrite Hattr, Hne; done. }
    rewrite (bind_run _ _ _ _ _ H1).
    destruct (init_sync_run this) as (names & -> & _). clear H1.
    unfold init_async.
    assert (init_shapes fetch parse url (with_classList names this)
            = (Return tt,
               with_validator (Some (mkValidator (Rdf.dataset quads) true true))
                 (with_shaclDataset (Rdf.dataset quads)
                    (with_classList names this)))) as H2.
    { unfold init_shapes. run. rewrite Hf. run. rewrite Hp. by run. }
    rewrite (bind_run _ _ _ _ _ H2). clear H2.
    rewrite (bind_run _ _ _ _ _ (init_shapeUris_run _)).
    rewrite (bind_run _ _ _ _ _ (init_rootShaclIri_run _)).
    match goal with |- context [bind (init_data _ _) _ ?s] =>
      destruct (init_data_run s) as (store & subject & Hs5 & Hret);
      assert (init_data fetch parse s
              = (Return tt, with_subject subject (with_store store s))) as H5
    end.
    { rewrite <- Hs5. apply proj2 in Hret. rewrite <- (Hret Hdata).
      by destruct (init_data _ _ _). }
    rewrite (bind_run _ _ _ _ _ H5). clear H5 Hs5 Hret.
    match goal with |- context [bind init_subject _ ?s] =>
      destruct (init_subject_run s) as (subject' & H6) end.
    rewrite (bind_run _ _ _ _ _ H6). clear H6.
    rewrite (bind_run _ _ _ _ _ (init_uiLanguagePriorities_run _)).
    rewrite (bind_run _ _ _ _ _ (attempt_run _ _)).
    rewrite (bind_run _ _ _ _ _ (init_dataPointer_run _)).
    rewrite (bind_run _ _ _ _ _ (init_contentLanguages_run _)).
    match goal with |- context [match ?p with Return _ => _ | Throw _ => _ end ?s] =>
      destruct (init_resume_run p s) as (shapes & root & extra & -> & _) end.
    done.
Qed.

Lemma bind_throws {A B} (c : @M Report TreeItem A) (k : A -> M B)
    (this final : Form) (e : Error) :
  bind c k this = (Throw e, final) ->
  c this = (Throw e, final)
  \/ exists a that, c this = (Return a, that) /\ k a that = (Throw e, final).
Proof.
  unfold bind. destruct (c this) as [[a|e'] that]; [eauto|].
  intros [= -> ->]. by left.
Qed.

Lemma init_shapes_throws (shaclUrl : string) (this final : Form) (e : Error) :
  init_shapes fetch parse shaclUrl this = (Throw e, final) ->
  final = this /\ (e = Rejected "fetch" \/ e = Rejected "parse").
Proof.
  unfold init_shapes. run.
  destruct (fetch shaclUrl) as [text|]; run; [|intros [= <- <-]; eauto].
  destruct (parse text) as [quads|]; run; [done|intros [= <- <-]; eauto].
Qed.

Lemma init_data_throws (this final : Form) (e : Error) :
  init_data fetch parse this = (Throw e, final) ->
  e = Rejected "fetch" \/ e = Rejected "parse".
Proof.
  unfold init_data. run.
  destruct (attributes this !! "data-url") as [url|]; run; [|done].
  destruct (Js.truthy url); run; [|done].
  destruct (fetch url) as [text|]; run; [|intros [= <- <-]; eauto].
  destruct (Js.truthy text); run; [|done].
  destruct (parse text) as [quads|]; run; [|intros [= <- <-]; eauto].
  by destruct quads.
Qed.

(** Where [init] throws, it is for the missing [shacl-url] or for a document
    that does not load, and the language priorities are as they were. *)
Lemma init_throws (this final : Form) (e : Error) :
  init options fetch parse engine shaclTree this = (Throw e, final) ->
  _uiLanguagePriorities final = _uiLanguagePriorities this
  /\ calls final = calls this
  /\ (e = Error_ "A shacl-url property is required. It should link to a SHACL turtle file"
      \/ e = Rejected "fetch" \/ e = Rejected "parse").
Proof.
  intros H. unfold init in H.
  destruct (init_sync_run this) as (names & Hs1 & _).
  apply bind_throws in H as [H|(url & s1 & H1 & H)].
  { rewrite H in Hs1. simpl in Hs1. subst final. split; [done|].
    split; [done|]. left.
    revert H. unfold init_sync, classList_add. run.
    destruct (Js.includes _ _); simpl;
      (destruct (attributes this !! "shacl-url") as [url|];
       [destruct (Js.truthy url)|]); run; congruence. }
  rewrite H1 in Hs1. simpl in Hs1. subst s1. clear H1.
  unfold init_async in H.
  apply bind_throws in H as [H|([] & s2 & H2 & H)].
  { apply init_shapes_throws in H as [-> He].
    split; [done|]. split; [done|by right]. }
  destruct (init_shapes_run url (with_classList names this)) as
    (text & quads & _ & _ & Hs2); [by rewrite H2|].
  rewrite H2 in Hs2. simpl in Hs2. subst s2. clear H2.
  rewrite (bind_run _ _ _ _ _ (init_shapeUris_run _)) in H.
  rewrite (bind_run _ _ _ _ _ (init_rootShaclIri_run _)) in H.
  match type of H with bind _ _ ?s = _ =>
    destruct (init_data_run s) as (store & subject & Hs5 & _) end.
  apply bind_throws in H as [H|([] & s5 & H5 & H)].
  { rewrite H in Hs5. simpl in Hs5. subst final.
    apply init_data_throws in H. split; [done|]. split; [done|by right]. }
  rewrite H5 in Hs5. simpl in Hs5. subst s5. clear H5.
  exfalso.
  match type of H with bind _ _ ?s = _ =>
    destruct (init_subject_run s) as (subject' & H6) end.
  rewrite (bind_run _ _ _ _ _ H6) in H. clear H6.
  rewrite (bind_run _ _ _ _ _ (init_uiLanguagePriorities_run _)) in H.
  rewrite (bind_run _ _ _ _ _ (attempt_run _ _)) in H.
  rewrite (bind_run _ _ _ _ _ (init_dataPointer_run _)) in H.
  rewrite (bind_run _ _ _ _ _ (init_contentLanguages_run _)) in H.
  match type of H with
    match ?p with Return _ => _ | Throw _ => _ end ?s = _ =>
    destruct (init_resume_run p s) as (shapes & root & extra & Hend & _) end.
  rewrite Hend in H. done.
Qed.

(** The constructor is [init] run on the fresh element, the React root
    being in place by the time [init] needs it. *)
Lemma init_sync_root (root : option (option FormLevelProps)) (this : Form) :
  init_sync (with_root root this)
  = (fst (init_sync this), with_root root (snd (init_sync this))).
Proof.
  unfold init_sync, classList_add. run.
  destruct (Js.includes (classList this) "shacl-form"); simpl;
    (destruct (attributes this !! "shacl-url") as [url|];
     [destruct (Js.truthy url)|]); done.
Qed.

Lemma create_init (attrs : gmap string string)
    (parents : list (gmap string string)) :
  create options fetch parse engine shaclTree attrs parents
  = init options fetch parse engine shaclTree
      (with_root (Some None) (fresh attrs parents)).
Proof.
  unfold create, constructor, init.
  rewrite (bind_run _ _ _ _ _ (attempt_run _ _)).
  unfold bind at 2. rewrite init_sync_root.
  unfold bind at 1, write at 1.
  destruct (init_sync (fresh attrs parents)) as [[url|e] that]; simpl.
  - rewrite attempt_run.
    by destruct (init_async options fetch parse engine shaclTree url _)
      as [[[]|e] final].
  - done.
Qed.

(** *** Validation *)

(** C8. Every validation run hands the validator the store as it is and the
    subject as the only focus term, a list of length one. That is so for
    [validate], whose result is what the validator answers to that call, for
    the run [render] starts, and for the run the construction of the
    element ends in; without a validator, and where [init] throws, there is
    no run. *)
Theorem validate_sole_focus (this : Form)
    (attrs : gmap string string) (parents : list (gmap string string)) :
  let runs :=
    match _validator this with
    | Some _ => [(_store this, [_subject this])]
    | None => []
    end in
  let created := create options fetch parse engine shaclTree attrs parents in
  (forall v, _validator this = Some v ->
     validate engine this
     = (match engine v (_store this) [_subject this] with
        | Some report => Return report
        | None => Throw (Rejected "validate")
        end,
        log (CallValidate v (_store this) [_subject this]) this))
  /\ validations (calls (snd (validate engine this)))
     = validations (calls this) ++ runs
  /\ validations (calls (snd (render options engine shaclTree this)))
     = validations (calls this) ++ runs
  /\ validations (calls (snd created))
     = match fst created with
       | Return _ => [(_store (snd created), [_subject (snd created)])]
       | Throw _ => []
       end
  /\ Forall (fun run => length (snd run) = 1 /\ _subject this ∈ snd run) runs.
Proof.
  cbv zeta. split; [|split; [|split; [|split]]].
  - intros v Hv. unfold validate, get_subject. run. rewrite Hv. run.
    by destruct (engine v (_store this) [_subject this]).
  - rewrite validate_run. destruct (_validator this) as [v|]; simpl.
    + unfold validations. by rewrite omap_app.
    + by rewrite app_nil_r.
  - unfold render, bind.
    pose proof (validate_run this) as Hrun.
    destruct (validate engine this) as [[report|e] that]; simpl in Hrun;
      subst that; simpl.
    + destruct (render_resume_run report
                  (match _validator this with
                   | Some v => log (CallValidate v (_store this) [_subject this]) this
                   | None => this
                   end)) as (shapes & root & extra & -> & Hextra).
      simpl. unfold validations in *. rewrite omap_app, Hextra, app_nil_r.
      destruct (_validator this) as [v|]; simpl.
      * by rewrite omap_app.
      * by rewrite app_nil_r.
    + destruct (_validator this) as [v|]; simpl.
      * unfold validations. by rewrite omap_app.
      * by rewrite app_nil_r.
  - rewrite create_init.
    destruct (init options fetch parse engine shaclTree
                (with_root (Some None) (fresh attrs parents)))
      as [[[]|e] final] eqn:E; simpl.
    + apply init_returns in E
        as (_ & _ & _ & _ & _ & _ & _ & _ & _ & _ & _ & _ & _ & Hruns).
      by rewrite Hruns.
    + apply init_throws in E as (_ & -> & _). done.
  - destruct (_validator this); repeat constructor.
Qed.

(** *** What initialisation settles *)

(** C7. Whatever [ui-language-priorities] is, and also when it is absent,
    the priorities [init] leaves end in the wildcard: where [init] returns
    they are the configured list (by default the wildcard alone) with the
    wildcard appended, and where it throws they are still the initial
    wildcard. *)
Theorem uiLanguagePriorities_end_in_wildcard
    (attrs : gmap string string) (parents : list (gmap string string)) :
  let result :=
    create options fetch parse engine shaclTree attrs parents in
  let configured :=
    match attrs !! "ui-language-priorities" with
    | Some value => Js.split Js.comma value
    | None => ["*"]
    end in
  last (_uiLanguagePriorities (snd result)) = Some "*"
  /\ match fst result with
     | Return _ => _uiLanguagePriorities (snd result) = configured ++ ["*"]
     | Throw _ => _uiLanguagePriorities (snd result) = ["*"]
     end.
Proof.
  cbv zeta.
  destruct (create options fetch parse engine shaclTree attrs parents)
    as [[[]|e] final] eqn:E; simpl.
  - rewrite create_init in E. apply init_returns in E
      as (url & text & quads & _ & _ & _ & _ & _ & _ & _ & Hui & _).
    simpl in Hui. rewrite Hui. split; [apply last_snoc|done].
  - rewrite create_init in E. apply init_throws in E as (-> & _ & _). done.
Qed.

(** C1, as the class has it. With exactly one [sh:NodeShape] declared and
    no [shacl-iri] given, the shape declared becomes the root shape. The
    number of shapes never makes [init] throw: it returns exactly when its
    documents load, also with several shapes declared and no root given. *)
Theorem init_root_shape
    (attrs : gmap string string) (parents : list (gmap string string)) :
  let result :=
    create options fetch parse engine shaclTree attrs parents in
  (forall url text quads only,
     attrs !! "shacl-url" = Some url -> fetch url = Some text ->
     parse text = Some quads ->
     nodeShapes (Rdf.dataset quads) = [only] ->
     attrs !! "shacl-iri" = None \/ attrs !! "shacl-iri" = Some "" ->
     fst result = Return tt ->
     _rootShaclIri (snd result) = only)
  /\ (forall url text quads,
        attrs !! "shacl-url" = Some url -> fetch url = Some text ->
        parse text = Some quads ->
        1 < length (nodeShapes (Rdf.dataset quads)) ->
        attrs !! "shacl-iri" = None \/ attrs !! "shacl-iri" = Some "" ->
        (fst result = Return tt <-> documents_load fetch parse attrs)).
Proof.
  cbv zeta. split.
  - intros url text quads only Hurl Hf Hp Hone Hiri Hret.
    destruct (create options fetch parse engine shaclTree attrs parents)
      as [[[]|e] final] eqn:E; [|done]. simpl.
    rewrite create_init in E. apply init_returns in E
      as (url' & text' & quads' & Hurl' & _ & Hf' & Hp' & _ & Huris & Hroot & _).
    simpl in *.
    assert (quads' = quads) as -> by congruence.
    rewrite Hroot, Huris, Hone. by destruct Hiri as [-> | ->].
  - intros url text quads _ _ _ _ _. rewrite create_init.
    apply (init_completes (with_root (Some None) (fresh attrs parents))).
Qed.

(** Left alone, the root is the empty IRI of the field initialiser: that is
    what [init] leaves with no shape or several declared and none given. *)
Lemma init_root_not_inferred
    (attrs : gmap string string) (parents : list (gmap string string))
    (final : Form) :
  create options fetch parse engine shaclTree attrs parents
  = (Return tt, final) ->
  length (shapeUris final) <> 1 ->
  attrs !! "shacl-iri" = None \/ attrs !! "shacl-iri" = Some "" ->
  _rootShaclIri final = NamedNode "".
Proof.
  intros E Hlen Hiri. rewrite create_init in E.
  apply init_returns in E as (_ & _ & _ & _ & _ & _ & _ & _ & _ & Hroot & _).
  simpl in Hroot. rewrite Hroot.
  destruct (shapeUris final) as [|only [|]]; simpl in *;
    destruct Hiri as [-> | ->]; done.
Qed.

(** C6, as the class has it. When the host has no [content-languages] of its
    own, [init] leaves [contentLanguages] to be exactly the language tags
    observed on the literal objects of the statements of the store, whatever
    their subject, provided some tag is observed and no tag holds a comma. *)
Theorem contentLanguages_observed
    (attrs : gmap string string) (parents : list (gmap string string))
    (final : Form) :
  attrs !! "content-languages" = None ->
  create options fetch parse engine shaclTree attrs parents
  = (Return tt, final) ->
  (exists tag, observed (_store final) tag) ->
  (forall tag, observed (_store final) tag -> Js.contains Js.comma tag = false) ->
  exists languages,
    get_contentLanguages final = (Return languages, final)
    /\ forall tag, tag ∈ languages <-> observed (_store final) tag.
Proof.
  intros Hnone E [tag0 Hsome] Hcomma. rewrite create_init in E.
  apply init_returns in E
    as (_ & _ & _ & _ & _ & _ & _ & _ & _ & _ & _ & Hattrs & _).
  simpl in Hattrs. rewrite Hnone in Hattrs.
  exists (closest_list "content-languages" final). split; [done|].
  rewrite (closest_self "content-languages"
             (Js.join Js.comma (scanLanguages (_store final)))).
  2: { rewrite Hattrs. apply lookup_insert_eq. }
  rewrite split_join.
  - intros tag. apply scanLanguages_elem_of.
  - intros Hnil. apply scanLanguages_elem_of in Hsome. rewrite Hnil in Hsome.
    by apply elem_of_nil in Hsome.
  - intros tag Htag. apply Hcomma. by apply scanLanguages_elem_of.
Qed.

(** With no tag to observe the attribute is written empty, and read back as
    one empty piece. *)
Lemma contentLanguages_nothing_observed
    (attrs : gmap string string) (parents : list (gmap string string))
    (final : Form) :
  attrs !! "content-languages" = None ->
  create options fetch parse engine shaclTree attrs parents
  = (Return tt, final) ->
  (forall tag, ~ observed (_store final) tag) ->
  get_contentLanguages final = (Return [""], final).
Proof.
  intros Hnone E Hno. rewrite create_init in E.
  apply init_returns in E
    as (_ & _ & _ & _ & _ & _ & _ & _ & _ & _ & _ & Hattrs & _).
  simpl in Hattrs. rewrite Hnone in Hattrs.
  unfold get_contentLanguages, read.
  rewrite (closest_self "content-languages"
             (Js.join Js.comma (scanLanguages (_store final)))).
  2: { rewrite Hattrs. apply lookup_insert_eq. }
  destruct (scanLanguages (_store final)) as [|tag rest] eqn:Escan; [done|].
  exfalso. apply (Hno tag), scanLanguages_elem_of. rewrite Escan. by left.
Qed.

End HostFacts.

(** ** The class at work *)

(** C1, as specified, fails: two node shapes are declared, no root is
    given, and [init] returns. *)
Lemma init_ambiguous_shapes_no_error :
  length (nodeShapes (Rdf.dataset Example.two_shapes)) = 2
  /\ Example.two_shapes_host !! "shacl-iri" = None
  /\ raises (fst (Example.create Example.two_shapes_host)) = false
  /\ fst (Example.create Example.two_shapes_host) = Return tt.
Proof. vm_compute. done. Qed.

Lemma init_root_shape_witness :
  _rootShaclIri (snd (Example.create Example.one_shape_host))
  = Example.ex "PersonShape".
Proof.
  apply (proj1 (init_root_shape tt Example.fetch Example.parse Example.engine
                  Tree.compile Example.one_shape_host [])
           "one.ttl" "one" Example.one_shape (Example.ex "PersonShape"));
    try (vm_compute; reflexivity).
  left. vm_compute. reflexivity.
Defined.

(** C6, as specified, fails: the subject is the first one of the data,
    and the tag of the other subject's name is among [contentLanguages]. *)
Lemma contentLanguages_of_other_subjects :
  let final := snd (Example.create Example.people_host) in
  _subject final = Example.ex "anna"
  /\ get_contentLanguages final = (Return ["en"; "de"], final)
  /\ (forall q, q ∈ _store final -> Rdf.subject q = _subject final ->
        Rdf.language (Rdf.object q) <> Some "de")
  /\ (observed_on (_store final) (_subject final) "de" -> False).
Proof.
  cbv zeta.
  assert (forall q,
            q ∈ _store (snd (Example.create Example.people_host)) ->
            Rdf.subject q = _subject (snd (Example.create Example.people_host)) ->
            Rdf.language (Rdf.object q) <> Some "de") as Hnone.
  { intros q Hq. vm_compute in Hq.
    apply elem_of_cons in Hq as [->|Hq]; [done|].
    apply elem_of_cons in Hq as [->|Hq]; [done|].
    by apply elem_of_nil in Hq. }
  split; [by vm_compute|]. split; [by vm_compute|]. split; [done|].
  intros (q & Hq & Hs & Hl & _). by apply (Hnone q).
Qed.

Lemma contentLanguages_observed_witness :
  exists languages,
    get_contentLanguages (snd (Example.create Example.people_host))
    = (Return languages, snd (Example.create Example.people_host))
    /\ forall tag, tag ∈ languages
         <-> observed (_store (snd (Example.create Example.people_host))) tag.
Proof.
  apply (contentLanguages_observed tt Example.fetch Example.parse Example.engine
           Tree.compile Example.people_host []).
  - vm_compute. reflexivity.
  - vm_compute. reflexivity.
  - exists "en". apply scanLanguages_elem_of. vm_compute. by left.
  - intros tag Htag. apply scanLanguages_elem_of in Htag. vm_compute in Htag.
    apply elem_of_cons in Htag as [->|Htag]; [reflexivity|].
    apply elem_of_cons in Htag as [->|Htag]; [reflexivity|].
    by apply elem_of_nil in Htag.
Defined.

Lemma activeContentLanguages_default_witness :
  get_activeContentLanguages
    (@fresh Tree.Report Tree.TreeItem {[ "content-languages" := "en,de" ]} [])
  = (Return ["en"; "de"],
     fresh {[ "content-languages" := "en,de" ]} []).
Proof.
  etransitivity.
  - apply (activeContentLanguages_default
             (@fresh Tree.Report Tree.TreeItem
                {[ "content-languages" := "en,de" ]} [])).
    vm_compute. reflexivity.
  - vm_compute. reflexivity.
Defined.

(** An active tag outside the content languages: the read throws. *)
Lemma activeContentLanguages_guard_witness :
  get_activeContentLanguages
    (@fresh Tree.Report Tree.TreeItem
       (<[ "active-content-languages" := "en,fr" ]>
          {[ "content-languages" := "en,de" ]}) [])
  = (Throw (Error_ "An active language was set that is not included in the available languages."),
     fresh (<[ "active-content-languages" := "en,fr" ]>
              {[ "content-languages" := "en,de" ]}) []).
Proof.
  apply (proj1 (activeContentLanguages_guard
                  (@fresh Tree.Report Tree.TreeItem
                     (<[ "active-content-languages" := "en,fr" ]>
                        {[ "content-languages" := "en,de" ]}) []))).
  exists "fr". split.
  - vm_compute. right. left.
  - apply includes_false. vm_compute. reflexivity.
Defined.

(** C2, as specified, fails: the host is given an active tag that is
    not among its content languages, and setting it raises nothing. *)
Lemma activeContentLanguages_set_unchecked :
  let this :=
    @fresh Tree.Report Tree.TreeItem {[ "content-languages" := "en,de" ]} [] in
  let set := setAttribute "active-content-languages" "fr" this in
  get_contentLanguages this = (Return ["en"; "de"], this)
  /\ closest_list "active-content-languages" (snd set) = ["fr"]
  /\ Js.includes ["en"; "de"] "fr" = false
  /\ raises (fst set) = false.
Proof. vm_compute. done. Qed.

(** A request for a shape that is not declared: the read throws. *)
Lemma shapeUri_lookup_witness :
  let this :=
    with_shapeUris [Example.ex "PersonShape"]
      (@fresh Tree.Report Tree.TreeItem
         {[ "shape-uri" := "http://example.org/PlaceShape" ]} []) in
  get_shapeUri this = (Throw (Error_ "Could not find the shape uri"), this).
Proof.
  cbv zeta.
  apply (proj1 (shapeUri_lookup
                  (with_shapeUris [Example.ex "PersonShape"]
                     (@fresh Tree.Report Tree.TreeItem
                        {[ "shape-uri" := "http://example.org/PlaceShape" ]} [])))
           "http://example.org/PlaceShape").
  - vm_compute. reflexivity.
  - done.
  - intros term Hterm. vm_compute in Hterm.
    apply elem_of_cons in Hterm as [->|Hterm]; [done|].
    by apply elem_of_nil in Hterm.
Defined.

(** ** The rename *)

Lemma elem_of_add (d : Rdf.Dataset) (q x : Quad) :
  x ∈ Rdf.add d q <-> x ∈ d \/ x = q.
Proof.
  unfold Rdf.add, Rdf.has. case_bool_decide as H.
  - split; [by left|]. intros [?| ->]; done.
  - rewrite elem_of_app, list_elem_of_singleton. done.
Qed.

Lemma elem_of_addQuads (qs : list Quad) (d : Rdf.Dataset) (x : Quad) :
  x ∈ Rdf.addQuads d qs <-> x ∈ d \/ x ∈ qs.
Proof.
  unfold Rdf.addQuads. revert d.
  induction qs as [|q qs IH]; intros d; simpl.
  - split; [by left|]. intros [?|H]; [done|]. by apply elem_of_nil in H.
  - rewrite IH, elem_of_add, elem_of_cons. tauto.
Qed.

Lemma elem_of_dataset (qs : list Quad) (x : Quad) :
  x ∈ Rdf.dataset qs <-> x ∈ qs.
Proof.
  unfold Rdf.dataset. rewrite elem_of_addQuads. split; [|by right].
  intros [H|H]; [|done]. by apply elem_of_nil in H.
Qed.

Lemma NoDup_add (d : Rdf.Dataset) (q : Quad) : NoDup d -> NoDup (Rdf.add d q).
Proof.
  intros Hd. unfold Rdf.add, Rdf.has. case_bool_decide as H; [done|].
  apply NoDup_app. split; [done|]. split; [|apply NoDup_singleton].
  intros x Hx Hq. apply list_elem_of_singleton in Hq. by subst.
Qed.

Lemma NoDup_addQuads (qs : list Quad) (d : Rdf.Dataset) :
  NoDup d -> NoDup (Rdf.addQuads d qs).
Proof.
  unfold Rdf.addQuads. revert d. induction qs as [|q qs IH]; intros d Hd; simpl.
  - done.
  - by apply IH, NoDup_add.
Qed.

Lemma elem_of_swapSubject (store : Rdf.Dataset) (A B : Term) (x : Quad) :
  x ∈ swapSubject store A B
  <-> exists q, q ∈ store /\ x = renameSubject A B q.
Proof.
  unfold swapSubject. rewrite elem_of_dataset, list_elem_of_fmap.
  split; intros (q & H1 & H2); exists q; done.
Qed.

Lemma renameSubject_back (A B : Term) (q : Quad) :
  Rdf.subject q <> B -> renameSubject B A (renameSubject A B q) = q.
Proof.
  intros Hfresh. unfold renameSubject.
  destruct (bool_decide (Rdf.subject q = A)) eqn:E; simpl.
  - apply bool_decide_eq_true in E. rewrite bool_decide_eq_true_2 by done.
    destruct q; simpl in *. by subst.
  - by rewrite bool_decide_eq_false_2.
Qed.

(** C4, as far as it holds. When no statement has the new term for its
    subject, the rename to it and the rename back leave the store with the
    quads it had. A rename gives every statement under the old subject the
    new one, keeps every other statement, adds nothing else, and leaves the
    store a set. *)
Theorem swapSubject_round_trip (store : Rdf.Dataset) (A B : Term) :
  (forall q, q ∈ store -> Rdf.subject q <> B) ->
  same_quads (swapSubject (swapSubject store A B) B A) store
  /\ (forall q, q ∈ store -> Rdf.subject q <> A -> q ∈ swapSubject store A B)
  /\ (forall q, q ∈ store -> Rdf.subject q = A ->
        mkQuad B (Rdf.predicate q) (Rdf.object q) (Rdf.graph q)
          ∈ swapSubject store A B)
  /\ (forall x, x ∈ swapSubject store A B ->
        exists q, q ∈ store /\ x = renameSubject A B q)
  /\ NoDup (swapSubject store A B).
Proof.
  intros Hfresh. repeat split.
  - intros Hx. apply elem_of_swapSubject in Hx as (q1 & Hq1 & ->).
    apply elem_of_swapSubject in Hq1 as (q0 & Hq0 & ->).
    rewrite renameSubject_back by (by apply Hfresh). done.
  - intros Hx. apply elem_of_swapSubject. exists (renameSubject A B q).
    split; [apply elem_of_swapSubject; by exists q|].
    rewrite renameSubject_back by (by apply Hfresh). done.
  - intros q Hq Hne. apply elem_of_swapSubject. exists q. split; [done|].
    unfold renameSubject. by rewrite bool_decide_eq_false_2.
  - intros q Hq Heq. apply elem_of_swapSubject. exists q. split; [done|].
    unfold renameSubject. by rewrite bool_decide_eq_true_2.
  - intros x Hx. by apply elem_of_swapSubject.
  - apply NoDup_addQuads, NoDup_nil_2.
Qed.

Lemma swapSubject_round_trip_witness :
  same_quads
    (swapSubject
       (swapSubject Example.people (Example.ex "anna") (Example.ex "carla"))
       (Example.ex "carla") (Example.ex "anna"))
    Example.people.
Proof.
  apply (swapSubject_round_trip Example.people (Example.ex "anna")
           (Example.ex "carla")).
  intros q Hq. vm_compute in Hq.
  apply elem_of_cons in Hq as [->|Hq]; [done|].
  apply elem_of_cons in Hq as [->|Hq]; [done|].
  by apply elem_of_nil in Hq.
Defined.

(** C4, as specified, fails: the new subject already has a statement,
    the two renames leave it under the old subject, and the store is not the
    one it was. Through the setter it fails too. *)
Lemma swapSubject_round_trip_merges :
  let anna := Example.ex "anna" in
  let bernd := Example.ex "bernd" in
  let lost := Rdf.triple bernd (Example.ex "name") (Literal "Bernd" "de" "rdf:langString") in
  let kept := Rdf.triple anna (Example.ex "name") (Literal "Anna" "en" "rdf:langString") in
  let this :=
    with_store Example.people
      (with_subject anna (@fresh Tree.Report Tree.TreeItem ∅ [])) in
  let there := snd (set_subject swapSubject bernd this) in
  let back := snd (set_subject swapSubject anna there) in
  Rdf.has Example.people lost = true
  /\ Rdf.has (swapSubject (swapSubject Example.people anna bernd) bernd anna) lost
     = false
  /\ Rdf.has (_store this) kept = true
  /\ Rdf.has (_store back) kept = false.
Proof. vm_compute. done. Qed.

(** The setter renames from the subject the field holds, and the field does
    not follow the rename: set to a fresh term and back, the store stays
    under the fresh term. *)
Lemma set_subject_back_renames_nothing :
  let anna := Example.ex "anna" in
  let carla := Example.ex "carla" in
  let this :=
    with_store [Rdf.triple anna (Example.ex "name") (Literal "Anna" "en" "")]
      (with_subject anna (@fresh Tree.Report Tree.TreeItem ∅ [])) in
  let there := snd (set_subject swapSubject carla this) in
  let back := snd (set_subject swapSubject anna there) in
  _store back = [Rdf.triple carla (Example.ex "name") (Literal "Anna" "en" "")]
  /\ _subject back = anna.
Proof. vm_compute. done. Qed.

(** * Further properties *)

(** ** The language tabs *)

Lemma split_where_not_nil (separates : ascii -> bool) (s : string) :
  LanguageTabs.split_where separates s <> [].
Proof.
  destruct s as [|c rest]; simpl; [done|].
  destruct (separates c); [done|].
  by destruct (LanguageTabs.split_where separates rest).
Qed.

(** The pieces of a split: the first one is free of separators; if it is
    the only one it is the whole string, and otherwise the last one is a
    suffix free of separators that follows a separator. *)
Lemma split_where_pieces (separates : ascii -> bool) (s : string) :
  exists first others,
    LanguageTabs.split_where separates s = first :: others
    /\ Forall (fun c => separates c = false) (list_ascii_of_string first)
    /\ (others = [] -> s = first)
    /\ (others <> [] ->
        exists piece start c,
          last others = Some piece
          /\ s = (start ++ String c piece)%string
          /\ separates c = true
          /\ Forall (fun c => separates c = false) (list_ascii_of_string piece)).
Proof.
  induction s as [|c rest IH].
  - exists "", []. simpl. repeat split; [constructor|done].
  - destruct IH as (first & others & Hsplit & Hfree & Hone & Hmore).
    simpl. rewrite Hsplit. destruct (separates c) eqn:Ec.
    + exists "", (first :: others). split; [done|]. split; [constructor|].
      split; [done|]. intros _. destruct others as [|second others].
      * exists first, "", c. rewrite (Hone eq_refl). done.
      * destruct Hmore as (piece & start & c' & Hlast & -> & Hc' & Hpiece);
          [done|].
        exists piece, (String c start), c'. done.
    + exists (String c first), others. split; [done|].
      split; [by constructor|]. split.
      * intros Hnil. by rewrite (Hone Hnil).
      * intros Hsome.
        destruct (Hmore Hsome) as (piece & start & c' & Hlast & -> & Hc' & Hpiece).
        exists piece, (String c start), c'. done.
Qed.

(** X16. [machineName]: the part of the value of the term after its last slash
    or hash, the whole value when it has neither. It holds no slash and no
    hash itself; it is empty when the value ends in one of them, and when
    there is no term. *)
Theorem machineName_last_segment (term : Term) :
  let name := LanguageTabs.machineName (Some term) in
  Forall (fun c => LanguageTabs.slash_or_hash c = false)
    (list_ascii_of_string name)
  /\ (Rdf.value term = name
      \/ exists start c,
           Rdf.value term = (start ++ String c name)%string
           /\ LanguageTabs.slash_or_hash c = true)
  /\ (Forall (fun c => LanguageTabs.slash_or_hash c = false)
        (list_ascii_of_string (Rdf.value term)) ->
      name = Rdf.value term)
  /\ (forall start c,
        Rdf.value term = (start ++ String c "")%string ->
        LanguageTabs.slash_or_hash c = true -> name = "")
  /\ LanguageTabs.machineName None = "".
Proof.
  cbv zeta. unfold LanguageTabs.machineName.
  destruct (split_where_pieces LanguageTabs.slash_or_hash (Rdf.value term))
    as (first & others & Hsplit & Hfree & Hone & Hmore).
  rewrite Hsplit.
  assert (forall (a b : string) (c : ascii),
            Forall (fun c => LanguageTabs.slash_or_hash c = false)
              (list_ascii_of_string (a ++ String c b)%string) ->
            LanguageTabs.slash_or_hash c = false) as Hin.
  { intros a b c. induction a as [|d a IH]; simpl; intros H;
      apply Forall_cons in H as [H1 H2]; [done|by apply IH]. }
  assert (forall (a b a' b' : string) (c c' : ascii),
            (a ++ String c b)%string = (a' ++ String c' b')%string ->
            LanguageTabs.slash_or_hash c = true ->
            Forall (fun c => LanguageTabs.slash_or_hash c = false)
              (list_ascii_of_string b') ->
            LanguageTabs.slash_or_hash c' = true ->
            Forall (fun c => LanguageTabs.slash_or_hash c = false)
              (list_ascii_of_string b) ->
            b = b') as Hsame.
  { intros a. induction a as [|d a IH]; intros b a' b' c c' Heq Hc Hb' Hc' Hb.
    - destruct a' as [|d' a']; simpl in Heq; injection Heq as -> Heq; [done|].
      subst b. apply Hin in Hb. congruence.
    - destruct a' as [|d' a']; simpl in Heq; injection Heq as -> Heq.
      + subst b'. apply Hin in Hb'. congruence.
      + by apply (IH b a' b' c c'). }
  destruct others as [|second others].
  - simpl. rewrite (Hone eq_refl). repeat split; try done; [by left|].
    intros start c Hval Hc. rewrite Hval in Hfree.
    apply Hin in Hfree. congruence.
  - destruct Hmore as (piece & start & c & Hlast & Hval & Hc & Hpiece); [done|].
    change (last (first :: second :: others)) with (last (second :: others)).
    rewrite Hlast. repeat split; try done.
    + right. by exists start, c.
    + intros Hall. rewrite Hval in Hall. apply Hin in Hall. congruence.
    + intros start' c' Hval' Hc'. rewrite Hval in Hval'.
      apply (Hsame start piece start' "" c c'); done.
Qed.

Lemma set_add_NoDup (s : list string) (x : string) :
  NoDup s -> NoDup (Js.set_add s x).
Proof.
  intros Hs. unfold Js.set_add. destruct (Js.includes s x) eqn:E; [done|].
  apply includes_false in E. apply NoDup_app. split; [done|].
  split; [|apply NoDup_singleton].
  intros y Hy Hx. apply list_elem_of_singleton in Hx. by subst.
Qed.

Lemma fold_set_add_elem_of (items acc : list string) (t : string) :
  t ∈ fold_left Js.set_add items acc <-> t ∈ acc \/ t ∈ items.
Proof.
  revert acc. induction items as [|x items IH]; intros acc; simpl.
  - split; [by left|]. intros [?|H]; [done|]. by apply elem_of_nil in H.
  - rewrite IH, set_add_elem_of, elem_of_cons. tauto.
Qed.

Lemma fold_set_add_NoDup (items acc : list string) :
  NoDup acc -> NoDup (fold_left Js.set_add items acc).
Proof.
  revert acc. induction items as [|x items IH]; intros acc Hacc; simpl;
    [done|]. by apply IH, set_add_NoDup.
Qed.

Lemma fold_set_add_distinct (items acc : list string) :
  NoDup (acc ++ items) -> fold_left Js.set_add items acc = acc ++ items.
Proof.
  revert acc. induction items as [|x items IH]; intros acc Hnd; simpl.
  - by rewrite app_nil_r.
  - assert (Js.set_add acc x = acc ++ [x]) as ->.
    { unfold Js.set_add. destruct (Js.includes acc x) eqn:E; [|done].
      apply includes_elem_of in E. apply NoDup_app in Hnd as (_ & Hnd & _).
      exfalso. apply (Hnd x E). by left. }
    rewrite IH; rewrite <- app_assoc; done.
Qed.

(** X17. The list the picker computes for the content languages when a language
    is picked: the languages there were and the one picked, none twice. On
    languages that were distinct it is the same list when the language was
    among them, and the list with the language at its end when it was not;
    picking the same language again changes nothing more. *)
Theorem withLanguage_union (contentLanguages : list string)
    (languageCode : string) :
  let picked := LanguageTabs.withLanguage contentLanguages languageCode in
  NoDup picked
  /\ (forall tag, tag ∈ picked <-> tag ∈ contentLanguages \/ tag = languageCode)
  /\ (NoDup contentLanguages ->
      picked = if bool_decide (languageCode ∈ contentLanguages)
               then contentLanguages
               else contentLanguages ++ [languageCode])
  /\ LanguageTabs.withLanguage picked languageCode = picked.
Proof.
  cbv zeta. unfold LanguageTabs.withLanguage, LanguageTabs.new_Set.
  assert (forall xs : list string, NoDup xs ->
            fold_left Js.set_add (xs ++ [languageCode]) []
            = if bool_decide (languageCode ∈ xs) then xs else xs ++ [languageCode])
    as Hdistinct.
  { intros xs Hxs. rewrite fold_left_app. simpl.
    rewrite (fold_set_add_distinct xs []) by done. simpl.
    unfold Js.set_add. case_bool_decide as Hin.
    - apply includes_elem_of in Hin. by rewrite Hin.
    - apply includes_false in Hin. by rewrite Hin. }
  split; [by apply fold_set_add_NoDup, NoDup_nil_2|].
  split; [|split; [by apply Hdistinct|]].
  - intros tag. rewrite fold_set_add_elem_of, elem_of_app,
      list_elem_of_singleton. split; [|tauto].
    intros [H|H]; [by apply elem_of_nil in H|done].
  - rewrite Hdistinct by (by apply fold_set_add_NoDup, NoDup_nil_2).
    rewrite bool_decide_eq_true_2; [done|].
    apply fold_set_add_elem_of. right. apply elem_of_app. right. by left.
Qed.

Section LanguageTabsFacts.

Context {Report TreeItem : Type}.
Variable name : option string.
Variable term : option Term.
Variable showLanguagePicker : bool.
Variable labels : string -> option string.

Local Abbreviation Host := (@ShaclForm Report TreeItem).

(** The tab of a language, once the active languages are known. *)
Lemma tab_run (languageCode : string) (this : Host) :
  LanguageTabs.tab labels languageCode this
  = match fst (get_activeContentLanguages this) with
    | Return activeContentLanguages =>
        (Return
           (LanguageTabs.mkTab languageCode
              ("nav-link " ++
               (if Js.includes activeContentLanguages languageCode
                then "active" else ""))
              (labels languageCode)
              (1 <? length (closest_list "content-languages" this))%nat),
         this)
    | Throw e => (Throw e, this)
    end.
Proof.
  unfold LanguageTabs.tab, bind.
  pose proof (get_activeContentLanguages_pure this) as Hpure.
  destruct (get_activeContentLanguages this) as [[active|e] that];
    simpl in *; by subst that.
Qed.

Lemma tabs_run (languageCodes : list string) (this : Host) :
  LanguageTabs.mapM (LanguageTabs.tab labels) languageCodes this
  = match fst (get_activeContentLanguages this), languageCodes with
    | Throw e, _ :: _ => (Throw e, this)
    | Throw e, [] => (Return [], this)
    | Return activeContentLanguages, _ =>
        (Return
           (map (fun languageCode =>
                   LanguageTabs.mkTab languageCode
                     ("nav-link " ++
                      (if Js.includes activeContentLanguages languageCode
                       then "active" else ""))
                     (labels languageCode)
                     (1 <? length (closest_list "content-languages" this))%nat)
              languageCodes),
         this)
    end.
Proof.
  induction languageCodes as [|languageCode rest IH]; simpl.
  - by destruct (fst (get_activeContentLanguages this)).
  - unfold bind at 1. rewrite tab_run.
    destruct (fst (get_activeContentLanguages this)) as [active|e]; [|done].
    unfold bind. rewrite IH. done.
Qed.

(** X18. The component reads the element and leaves it as it is. It throws
    exactly when there is a content language to show and an active language
    that is not a content language; with no content language it shows no tab
    and reads no active language. *)
Theorem LanguageTabs_throws (this : Host) :
  let content := closest_list "content-languages" this in
  let active := closest_list "active-content-languages" this in
  let shown :=
    LanguageTabs.LanguageTabs name term showLanguagePicker labels this in
  snd shown = this
  /\ (raises (fst shown) = true
      <-> content <> [] /\ exists tag, tag ∈ active /\ tag ∉ content)
  /\ (content = [] ->
      exists view, fst shown = Return view /\ LanguageTabs.tabs view = []).
Proof.
  cbv zeta. unfold LanguageTabs.LanguageTabs, bind, get_contentLanguages, read.
  rewrite tabs_run.
  assert (raises (fst (get_activeContentLanguages this)) = true
          <-> exists tag, tag ∈ closest_list "active-content-languages" this
                          /\ tag ∉ closest_list "content-languages" this)
    as Hguard.
  { unfold get_activeContentLanguages.
    destruct (Js.every _ _) eqn:E; simpl.
    - split.
      + by destruct (Nat.eqb _ _).
      + intros (tag & Hin & Hout).
        pose proof (proj1 (every_includes _ _) E) as Hall.
        exfalso. by apply Hout, Hall.
    - split; [|done]. intros _. apply every_false in E as (tag & Hin & Hout).
      exists tag. split; [done|]. by apply includes_false. }
  destruct (fst (get_activeContentLanguages this)) as [active|e]; simpl in *.
  - split; [done|]. split.
    + split; [done|]. intros [_ H]. by apply Hguard in H.
    + intros ->. eexists. split; [done|done].
  - destruct (closest_list "content-languages" this) as [|tag rest] eqn:E;
      simpl.
    + split; [done|]. split; [|intros _; eexists; done].
      split; [done|]. by intros [? _].
    + split; [done|]. split; [|done].
      split; [|done]. intros _. split; [done|]. by apply Hguard.
Qed.

(** X19. Where the component returns, there is one tab per content language, in
    their order and with the language for its key; every tab has the button
    that removes its language when there are two content languages or more,
    and none has it when there is one; its label is the one of the state. *)
Theorem LanguageTabs_tabs (this : Host) (view : LanguageTabs.View) (final : Host) :
  LanguageTabs.LanguageTabs name term showLanguagePicker labels this
  = (Return view, final) ->
  let content := closest_list "content-languages" this in
  map LanguageTabs.key (LanguageTabs.tabs view) = content
  /\ Forall (fun tab =>
               LanguageTabs.removeButton tab = true <-> 2 <= length content)
       (LanguageTabs.tabs view)
  /\ Forall (fun tab =>
               LanguageTabs.label tab = labels (LanguageTabs.key tab))
       (LanguageTabs.tabs view)
  /\ LanguageTabs.picker view = showLanguagePicker
  /\ LanguageTabs.className view
     = ("group group-language-tabs " ++ LanguageTabs.machineName term)%string.
Proof.
  unfold LanguageTabs.LanguageTabs, bind, get_contentLanguages, read.
  rewrite tabs_run. cbv zeta.
  assert (forall f : string -> string,
            let items :=
              map (fun languageCode =>
                     LanguageTabs.mkTab languageCode (f languageCode)
                       (labels languageCode)
                       (1 <? length (closest_list "content-languages" this))%nat)
                (closest_list "content-languages" this) in
            map LanguageTabs.key items = closest_list "content-languages" this
            /\ Forall (fun tab =>
                 LanguageTabs.removeButton tab = true
                 <-> 2 <= length (closest_list "content-languages" this)) items
            /\ Forall (fun tab =>
                 LanguageTabs.label tab = labels (LanguageTabs.key tab)) items)
    as Hitems.
  { intros f. cbv zeta. split; [|split].
    - rewrite map_map. simpl. apply map_id.
    - apply Forall_forall. intros tab Htab.
      apply list_elem_of_fmap in Htab as (code & -> & _). simpl.
      rewrite Nat.ltb_lt. lia.
    - apply Forall_forall. intros tab Htab.
      by apply list_elem_of_fmap in Htab as (code & -> & _). }
  destruct (fst (get_activeContentLanguages this)) as [active|e].
  - intros [= <- <-]. simpl.
    destruct (Hitems (fun languageCode =>
                        ("nav-link " ++
                         (if Js.includes active languageCode
                          then "active" else ""))%string))
      as (H1 & H2 & H3).
    done.
  - destruct (closest_list "content-languages" this) as [|tag rest]; [|done].
    intros [= <- <-]. simpl. repeat split; constructor.
Qed.

(** X20. Where the component returns, a tab has the class of the active link
    exactly when its language is among the languages the host gives as
    active, and the plain class otherwise; with no active language chosen
    anywhere, every tab is active. *)
Theorem LanguageTabs_active (this : Host) (view : LanguageTabs.View)
    (final : Host) :
  LanguageTabs.LanguageTabs name term showLanguagePicker labels this
  = (Return view, final) ->
  Forall (fun tab =>
            exists selected,
              get_activeContentLanguages this = (Return selected, this)
              /\ LanguageTabs.linkClass tab
                 = (if bool_decide (LanguageTabs.key tab ∈ selected)
                    then "nav-link active" else "nav-link "))
    (LanguageTabs.tabs view)
  /\ (closest_list "active-content-languages" this = [] ->
      Forall (fun tab => LanguageTabs.linkClass tab = "nav-link active")
        (LanguageTabs.tabs view)).
Proof.
  unfold LanguageTabs.LanguageTabs, bind, get_contentLanguages, read.
  rewrite tabs_run.
  pose proof (get_activeContentLanguages_pure this) as Hpure.
  destruct (get_activeContentLanguages this) as [[active|e] that] eqn:Eget;
    simpl in *; subst that.
  - intros [= <- <-]. simpl. split.
    + apply Forall_forall. intros tab Htab.
      apply list_elem_of_fmap in Htab as (code & -> & Hcode). simpl.
      exists active. split; [done|].
      destruct (Js.includes active code) eqn:E.
      * apply includes_elem_of in E. by rewrite bool_decide_eq_true_2.
      * apply includes_false in E. by rewrite bool_decide_eq_false_2.
    + intros Hnone. apply Forall_forall. intros tab Htab.
      apply list_elem_of_fmap in Htab as (code & -> & Hcode). simpl.
      unfold get_activeContentLanguages in Eget. rewrite Hnone in Eget.
      simpl in Eget. injection Eget as <-.
      apply includes_elem_of in Hcode. by rewrite Hcode.
  - destruct (closest_list "content-languages" this) as [|tag rest]; [|done].
    intros [= <- <-]. simpl. split; [constructor|]. intros _. constructor.
Qed.

End LanguageTabsFacts.

(** ** More on the host element *)

Section HostMoreFacts.

Context {Report TreeItem Options : Type}.
Variable options : Options.
Variable fetch : string -> option string.
Variable parse : string -> option (list Quad).
Variable engine : Validator -> Rdf.Dataset -> list Term -> option Report.
Variable shaclTree :
  Report -> Rdf.Dataset -> Options -> Term -> TreeItem * Rdf.Dataset.
Variable swapSubject : Rdf.Dataset -> Term -> Term -> Rdf.Dataset.

Local Abbreviation Form := (@ShaclForm Report TreeItem).

(** *** The blocks of [init], exactly *)

Lemma init_data_state (this : Form) :
  snd (init_data fetch parse this)
  = with_subject
      match dataDocument fetch parse (attributes this) with
      | Some (first :: _) => Rdf.subject first
      | _ => _subject this
      end
      (with_store
         match dataDocument fetch parse (attributes this) with
         | Some dataQuads => Rdf.addQuads (_store this) dataQuads
         | None => _store this
         end this).
Proof.
  unfold init_data, dataDocument. run.
  destruct (attributes this !! "data-url") as [url|]; run; [|by destruct this].
  destruct (Js.truthy url); run; [|by destruct this].
  destruct (fetch url) as [text|]; run; [|by destruct this].
  destruct (Js.truthy text); run; [|by destruct this].
  destruct (parse text) as [quads|]; run; [|by destruct this].
  destruct quads as [|first rest]; run; [by destruct this|done].
Qed.

Lemma init_subject_state (this : Form) :
  init_subject this
  = (Return tt,
     with_subject
       match attributes this !! "data-iri" with
       | Some iri => if Js.truthy iri then NamedNode iri else _subject this
       | None => _subject this
       end this).
Proof.
  unfold init_subject. run.
  destruct (attributes this !! "data-iri") as [iri|];
    [destruct (Js.truthy iri)|]; run; by destruct this.
Qed.

Lemma render_resume_state (report : Report) (this : Form) :
  render_resume options shaclTree report this
  = let compiled :=
      shaclTree report (_shaclDataset this) options (_rootShaclIri this) in
    let props :=
      mkProps (fst compiled) (_data this) (_uiLanguagePriorities this) in
    let asked :=
      with_shaclDataset (snd compiled)
        (log (CallShaclTree report (_shaclDataset this) (_rootShaclIri this))
           this) in
    match _root this with
    | Some _ =>
        (Return tt, with_root (Some (Some props)) (log (CallRootRender props) asked))
    | None =>
        (Throw (TypeError "Cannot read properties of undefined (reading 'render')"),
         asked)
    end.
Proof.
  unfold render_resume. run.
  destruct (shaclTree report (_shaclDataset this) options (_rootShaclIri this))
    as [tree shapes']. run.
  by destruct (_root this).
Qed.

Lemma validate_outcome (this : Form) :
  fst (validate engine this)
  = match _validator this with
    | Some v =>
        match engine v (_store this) [_subject this] with
        | Some report => Return report
        | None => Throw (Rejected "validate")
        end
    | None =>
        Throw (TypeError "Cannot read properties of undefined (reading 'validate')")
    end.
Proof.
  unfold validate, get_subject. run.
  destruct (_validator this) as [v|]; run; [|done].
  by destruct (engine v (_store this) [_subject this]).
Qed.

(** *** [init] as a whole, exactly *)

(** Where [init] returns: the store, the subject, the pointer and the
    validator it leaves, and what became of the render it started. *)
Lemma init_returns_state (this final : Form) :
  init options fetch parse engine shaclTree this = (Return tt, final) ->
  exists url text quads,
    attributes this !! "shacl-url" = Some url /\ url <> ""
    /\ fetch url = Some text /\ parse text = Some quads
    /\ let store :=
         match dataDocument fetch parse (attributes this) with
         | Some dataQuads => Rdf.addQuads (_store this) dataQuads
         | None => _store this
         end in
       let subject :=
         let first :=
           match dataDocument fetch parse (attributes this) with
           | Some (first :: _) => Rdf.subject first
           | _ => _subject this
           end in
         match attributes this !! "data-iri" with
         | Some iri => if Js.truthy iri then NamedNode iri else first
         | None => first
         end in
       let v := mkValidator (Rdf.dataset quads) true true in
       _store final = store
       /\ _subject final = subject
       /\ _data final = Some (grapoi TheStore subject)
       /\ _validator final = Some v
       /\ match engine v store [subject] with
          | Some report =>
              let compiled :=
                shaclTree report (Rdf.dataset quads) options
                  (_rootShaclIri final) in
              let props :=
                mkProps (fst compiled) (Some (grapoi TheStore subject))
                  (_uiLanguagePriorities final) in
              _shaclDataset final = snd compiled
              /\ match _root this with
                 | Some _ =>
                     _root final = Some (Some props)
                     /\ calls final
                        = calls this
                          ++ [CallValidate v store [subject];
                              CallShaclTree report (Rdf.dataset quads)
                                (_rootShaclIri final);
                              CallRootRender props]
                 | None =>
                     _root final = None
                     /\ calls final
                        = calls this
                          ++ [CallValidate v store [subject];
                              CallShaclTree report (Rdf.dataset quads)
                                (_rootShaclIri final)]
                 end
          | None =>
              _shaclDataset final = Rdf.dataset quads
              /\ _root final = _root this
              /\ calls final = calls this ++ [CallValidate v store [subject]]
          end.
Proof.
  intros H. unfold init in H.
  apply bind_returns in H as (url & s1 & H1 & H).
  destruct (init_sync_run this) as (names & Hs1 & Hurl).
  rewrite H1 in Hs1, Hurl. simpl in Hs1. subst s1.
  destruct (Hurl url eq_refl) as [Hattr Hne]. clear Hurl H1.
  unfold init_async in H.
  apply bind_returns in H as ([] & s2 & H2 & H).
  pose proof (init_shapes_run fetch parse url (with_classList names this)) as Hs2.
  rewrite H2 in Hs2. simpl in Hs2.
  destruct (Hs2 eq_refl) as (text & quads & Hf & Hp & ->). clear Hs2 H2.
  apply bind_returns in H as ([] & s3 & H3 & H).
  rewrite init_shapeUris_run in H3. injection H3 as <-.
  apply bind_returns in H as ([] & s4 & H4 & H).
  rewrite init_rootShaclIri_run in H4. injection H4 as <-.
  apply bind_returns in H as ([] & s5 & H5 & H).
  match type of H5 with init_data _ _ ?s = _ =>
    pose proof (init_data_state s) as Hs5 end.
  rewrite H5 in Hs5. simpl in Hs5. subst s5. clear H5.
  apply bind_returns in H as ([] & s6 & H6 & H).
  rewrite init_subject_state in H6. injection H6 as <-.
  apply bind_returns in H as ([] & s7 & H7 & H).
  rewrite init_uiLanguagePriorities_run in H7. injection H7 as <-.
  apply bind_returns in H as (pending & s8 & H8 & H).
  rewrite attempt_run in H8. injection H8 as Hpending Hs8.
  rewrite validate_run in Hs8. rewrite validate_outcome in Hpending.
  simpl in Hs8, Hpending. subst s8 pending.
  apply bind_returns in H as ([] & s9 & H9 & H).
  rewrite init_dataPointer_run in H9. injection H9 as <-.
  apply bind_returns in H as ([] & s10 & H10 & H).
  rewrite init_contentLanguages_run in H10. injection H10 as <-.
  exists url, text, quads. repeat (split; [done|]). cbv zeta.
  match type of H with context [engine ?v ?store ?focus] =>
    change (engine _ _ _) with (engine v store focus);
    destruct (engine v store focus) as [report|] eqn:Eengine
  end.
  - rewrite (bind_run _ _ _ _ _ (attempt_run _ _)) in H.
    rewrite render_resume_state in H. unfold ret in H.
    injection H as <-.
    destruct (attributes this !! "content-languages"); simpl;
      destruct (_root this) eqn:Eroot; simpl; rewrite <- ?app_assoc, ?Eroot;
      repeat split; reflexivity.
  - unfold ret in H. injection H as <-.
    destruct (attributes this !! "content-languages"); simpl;
      repeat split; reflexivity.
Qed.

(** Where [init] throws, nothing was loaded into the store, the subject and
    the pointer are as they were, no attribute was touched, and no call left
    the class. *)
Lemma init_throws_state (this final : Form) (e : Error) :
  init options fetch parse engine shaclTree this = (Throw e, final) ->
  _store final = _store this /\ _subject final = _subject this
  /\ _data final = _data this /\ _root final = _root this
  /\ attributes final = attributes this /\ ancestors final = ancestors this
  /\ calls final = calls this.
Proof.
  intros H. unfold init in H.
  destruct (init_sync_run this) as (names & Hs1 & _).
  apply bind_throws in H as [H|(url & s1 & H1 & H)].
  { rewrite H in Hs1. simpl in Hs1. by subst final. }
  rewrite H1 in Hs1. simpl in Hs1. subst s1. clear H1.
  unfold init_async in H.
  apply bind_throws in H as [H|([] & s2 & H2 & H)].
  { by apply init_shapes_throws in H as [-> He]. }
  destruct (init_shapes_run fetch parse url (with_classList names this)) as
    (text & quads & _ & _ & Hs2); [by rewrite H2|].
  rewrite H2 in Hs2. simpl in Hs2. subst s2. clear H2.
  rewrite (bind_run _ _ _ _ _ (init_shapeUris_run _)) in H.
  rewrite (bind_run _ _ _ _ _ (init_rootShaclIri_run _)) in H.
  apply bind_throws in H as [H|([] & s5 & H5 & H)].
  { match type of H with init_data _ _ ?s = _ =>
      pose proof (init_data_state s) as Hs5;
      pose proof (init_data_run fetch parse s) as (_ & _ & _ & Hloads) end.
    rewrite H in Hs5. simpl in Hs5.
    assert (dataDocument fetch parse (attributes this) = None) as Hnone.
    { revert H. unfold init_data, dataDocument. run.
      destruct (attributes this !! "data-url") as [u|]; run; [|done].
      destruct (Js.truthy u); run; [|done].
      destruct (fetch u) as [t|]; run; [|done].
      destruct (Js.truthy t); run; [|done].
      destruct (parse t) as [qs|]; run; [|done]. by destruct qs. }
    simpl in Hs5. rewrite Hnone in Hs5. by subst final. }
  exfalso.
  rewrite (bind_run _ _ _ _ _ (init_subject_state _)) in H.
  rewrite (bind_run _ _ _ _ _ (init_uiLanguagePriorities_run _)) in H.
  rewrite (bind_run _ _ _ _ _ (attempt_run _ _)) in H.
  rewrite (bind_run _ _ _ _ _ (init_dataPointer_run _)) in H.
  rewrite (bind_run _ _ _ _ _ (init_contentLanguages_run _)) in H.
  match type of H with
    match ?p with Return _ => _ | Throw _ => _ end ?s = _ =>
    destruct (init_resume_run options shaclTree p s)
      as (shapes & root & extra & Hend & _) end.
  rewrite Hend in H. done.
Qed.

(** *** Construction *)

(** X1. Without a [shacl-url], or with an empty one, the constructor still
    returns: it is the promise of [init] that is rejected, with the error
    that asks for the attribute. The element has its React root and nothing
    else: no shapes, no validator, no data, and no call left the class. *)
Theorem constructor_without_shacl_url
    (attrs : gmap string string) (parents : list (gmap string string)) :
  attrs !! "shacl-url" = None \/ attrs !! "shacl-url" = Some "" ->
  exists final,
    constructor options fetch parse engine shaclTree (fresh attrs parents)
    = (Return
         (Throw (Error_ "A shacl-url property is required. It should link to a SHACL turtle file")),
       final)
    /\ _root final = Some None /\ _validator final = None
    /\ _shaclDataset final = [] /\ shapeUris final = []
    /\ _store final = [] /\ _data final = None /\ calls final = [].
Proof.
  intros Hurl. unfold constructor, init_sync, classList_add. run.
  destruct Hurl as [-> | ->]; eexists; (split; [reflexivity|done]).
Qed.

(** X2. Where [init] throws, it throws for the missing [shacl-url] or for a
    document that does not load or parse, and it has loaded nothing: the
    store is empty, the subject is the empty IRI of the initialiser, there
    is no data pointer, nothing was validated and nothing rendered. *)
Theorem init_failure_loads_nothing
    (attrs : gmap string string) (parents : list (gmap string string))
    (e : Error) (final : Form) :
  create options fetch parse engine shaclTree attrs parents = (Throw e, final) ->
  _store final = [] /\ _subject final = NamedNode "" /\ _data final = None
  /\ _root final = Some None /\ calls final = []
  /\ (e = Error_ "A shacl-url property is required. It should link to a SHACL turtle file"
      \/ e = Rejected "fetch" \/ e = Rejected "parse").
Proof.
  intros E. rewrite create_init in E.
  pose proof (init_throws_state _ _ _ E)
    as (Hstore & Hsubject & Hdata & Hroot & Hattrs & _ & Hcalls).
  apply init_throws in E as (_ & _ & He). done.
Qed.

(** *** What [init] loads *)

(** X3. Where [init] returns, the store holds the quads of the data document,
    each once, and nothing else; with no data document parsed it is empty. *)
Theorem init_loads_data
    (attrs : gmap string string) (parents : list (gmap string string))
    (final : Form) :
  create options fetch parse engine shaclTree attrs parents = (Return tt, final) ->
  NoDup (_store final)
  /\ (forall q, q ∈ _store final
        <-> exists dataQuads,
              dataDocument fetch parse attrs = Some dataQuads /\ q ∈ dataQuads)
  /\ (dataDocument fetch parse attrs = None -> _store final = []).
Proof.
  intros E. rewrite create_init in E.
  apply init_returns_state in E
    as (url & text & quads & _ & _ & _ & _ & Hstore & _).
  simpl in Hstore. rewrite Hstore.
  destruct (dataDocument fetch parse attrs) as [dataQuads|].
  - split; [apply NoDup_addQuads, NoDup_nil_2|]. split; [|done].
    intros q. rewrite elem_of_addQuads. split.
    + intros [H|H]; [by apply elem_of_nil in H|]. by exists dataQuads.
    + intros (qs & [= <-] & Hq). by right.
  - split; [apply NoDup_nil_2|]. split; [|done].
    intros q. split; [intros H; by apply elem_of_nil in H|].
    by intros (qs & Hqs & _).
Qed.

(** X4. Where [init] returns, the subject is the IRI of [data-iri] when that
    attribute is given and not empty, whatever the data document is about;
    otherwise it is the subject of the first quad of the data document, and
    the empty IRI of the initialiser when no quad was parsed. The data
    pointer is anchored at that subject, in the store. *)
Theorem init_chooses_subject
    (attrs : gmap string string) (parents : list (gmap string string))
    (final : Form) :
  create options fetch parse engine shaclTree attrs parents = (Return tt, final) ->
  (forall iri, attrs !! "data-iri" = Some iri -> iri <> "" ->
     _subject final = NamedNode iri)
  /\ (attrs !! "data-iri" = None \/ attrs !! "data-iri" = Some "" ->
      (forall first rest,
         dataDocument fetch parse attrs = Some (first :: rest) ->
         _subject final = Rdf.subject first)
      /\ (dataDocument fetch parse attrs = None
          \/ dataDocument fetch parse attrs = Some [] ->
          _subject final = NamedNode ""))
  /\ _data final = Some (grapoi TheStore (_subject final)).
Proof.
  intros E. rewrite create_init in E.
  apply init_returns_state in E
    as (url & text & quads & _ & _ & _ & _ & _ & Hsubject & Hdata & _).
  simpl in Hsubject. rewrite Hdata, Hsubject. split; [|split; [|done]].
  - intros iri -> Hne. apply truthy_nonempty in Hne. by rewrite Hne.
  - intros Hiri. split.
    + intros first rest ->. by destruct Hiri as [-> | ->].
    + intros [-> | ->]; by destruct Hiri as [-> | ->].
Qed.

(** X5. Where [init] returns, the render it started has asked the validator
    once, about the store and the subject [init] leaves. If the validator
    answers, the tree compiled from its report, the shapes and the root is
    handed to the React root, once, with the data pointer [init] set after
    starting the render and with the language priorities it leaves. If the
    validator fails, nothing is compiled or rendered, and [init] returns all
    the same. *)
Theorem init_renders_once
    (attrs : gmap string string) (parents : list (gmap string string))
    (final : Form) :
  create options fetch parse engine shaclTree attrs parents = (Return tt, final) ->
  exists v shapes,
    _validator final = Some v /\ v_dataset v = shapes
    /\ let asked := CallValidate v (_store final) [_subject final] in
       match engine v (_store final) [_subject final] with
       | Some report =>
           let compiled :=
             shaclTree report shapes options (_rootShaclIri final) in
           let props :=
             mkProps (fst compiled) (_data final) (_uiLanguagePriorities final) in
           _root final = Some (Some props)
           /\ _shaclDataset final = snd compiled
           /\ calls final
              = [asked; CallShaclTree report shapes (_rootShaclIri final);
                 CallRootRender props]
       | None =>
           _root final = Some None /\ _shaclDataset final = shapes
           /\ calls final = [asked]
       end.
Proof.
  intros E. rewrite create_init in E.
  apply init_returns_state in E
    as (url & text & quads & _ & _ & _ & _ & Hstore & Hsubject & Hdata & Hv
        & Hrender).
  exists (mkValidator (Rdf.dataset quads) true true), (Rdf.dataset quads).
  split; [done|]. split; [done|]. cbv zeta.
  rewrite Hstore, Hsubject, Hdata. simpl in Hrender.
  match type of Hrender with context [engine ?v ?store ?focus] =>
    change (engine _ _ _) with (engine v store focus);
    destruct (engine v store focus) as [report|] eqn:Eengine
  end.
  - destruct Hrender as (Hshapes & Hroot & Hcalls).
    rewrite Hshapes, Hroot, Hcalls. done.
  - destruct Hrender as (Hshapes & Hroot & Hcalls).
    rewrite Hshapes, Hroot, Hcalls. done.
Qed.

(** X6. Of the attributes it reads, and of any other but the class, [init]
    changes none but [content-languages], whether it returns or throws, and
    it leaves the ancestors alone; a [content-languages] that is given on
    the host is kept as given, and is what [contentLanguages] then reads. *)
Theorem init_writes_only_contentLanguages
    (attrs : gmap string string) (parents : list (gmap string string)) :
  let final :=
    snd (create options fetch parse engine shaclTree attrs parents) in
  ancestors final = parents
  /\ (forall name, name <> "content-languages" -> name <> "class" ->
        attributes final !! name = attrs !! name)
  /\ (forall given, attrs !! "content-languages" = Some given ->
        attributes final !! "content-languages" = Some given
        /\ get_contentLanguages final
           = (Return (Js.split Js.comma given), final)).
Proof.
  cbv zeta. rewrite create_init.
  destruct (init options fetch parse engine shaclTree
              (with_root (Some None) (fresh attrs parents)))
    as [[[]|e] final] eqn:E; simpl.
  - apply init_returns in E
      as (_ & _ & _ & _ & _ & _ & _ & _ & _ & _ & _ & Hattrs & Hparents & _).
    simpl in Hattrs, Hparents. split; [done|]. split.
    + intros name Hname _. rewrite Hattrs.
      destruct (attrs !! "content-languages"); [done|].
      by rewrite lookup_insert_ne.
    + intros given Hgiven. rewrite Hgiven in Hattrs.
      assert (attributes final !! "content-languages" = Some given) as Hkept
        by (by rewrite Hattrs).
      split; [done|]. unfold get_contentLanguages, read.
      by rewrite (closest_self "content-languages" given).
  - apply init_throws_state in E as (_ & _ & _ & _ & Hattrs & Hparents & _).
    simpl in Hattrs, Hparents. split; [done|].
    split; [intros name _ _; by rewrite Hattrs|].
    intros given Hgiven.
    assert (attributes final !! "content-languages" = Some given) as Hkept
      by (by rewrite Hattrs).
    split; [done|]. unfold get_contentLanguages, read.
    by rewrite (closest_self "content-languages" given).
Qed.

(** *** The shapes *)

Lemma elem_of_nodeShapes (shapes : Rdf.Dataset) (term : Term) :
  term ∈ nodeShapes shapes
  <-> exists q, q ∈ shapes /\ Rdf.subject q = term
                /\ Rdf.predicate q = Rdf.rdf "type"
                /\ Rdf.object q = Rdf.sh "NodeShape".
Proof.
  unfold nodeShapes, Rdf.match_. rewrite list_elem_of_fmap. split.
  - intros (q & -> & Hq). apply list_elem_of_In, filter_In in Hq as [Hq Hm].
    simpl in Hm. apply andb_true_iff in Hm as [Hp Ho].
    apply bool_decide_eq_true in Hp, Ho.
    exists q. split; [by apply list_elem_of_In|done].
  - intros (q & Hq & <- & Hp & Ho). exists q. split; [done|].
    apply list_elem_of_In, filter_In. split; [by apply list_elem_of_In|].
    simpl. by rewrite !bool_decide_eq_true_2.
Qed.

(** X7. Where [init] returns, [shapeUris] holds exactly the subjects the shapes
    document declares to be a [sh:NodeShape]; and a [shape-uri] that is the
    value of one of them makes [shapeUri] return a declared shape of that
    value. *)
Theorem init_collects_node_shapes
    (attrs : gmap string string) (parents : list (gmap string string))
    (final : Form) (url text : string) (quads : list Quad) :
  attrs !! "shacl-url" = Some url -> fetch url = Some text ->
  parse text = Some quads ->
  create options fetch parse engine shaclTree attrs parents = (Return tt, final) ->
  (forall term,
     term ∈ shapeUris final
     <-> exists q, q ∈ quads /\ Rdf.subject q = term
                   /\ Rdf.predicate q = Rdf.rdf "type"
                   /\ Rdf.object q = Rdf.sh "NodeShape")
  /\ (forall given term,
        attrs !! "shape-uri" = Some given -> given <> "" ->
        term ∈ shapeUris final -> Rdf.value term = given ->
        exists found,
          get_shapeUri final = (Return (Some found), final)
          /\ found ∈ shapeUris final /\ Rdf.value found = given).
Proof.
  intros Hurl Hf Hp E. rewrite create_init in E.
  apply init_returns in E
    as (url' & text' & quads' & Hurl' & _ & Hf' & Hp' & _ & Huris & _ & _
        & Hattrs & _).
  simpl in *. assert (quads' = quads) as -> by congruence.
  split.
  - intros term. rewrite Huris, elem_of_nodeShapes.
    split; intros (q & Hq & H); exists q; (split; [|done]);
      by apply elem_of_dataset.
  - intros given term Hgiven Hne Hterm Hvalue.
    apply (shapeUri_found final given term); try done.
    rewrite Hattrs. destruct (attrs !! "content-languages"); [done|].
    by rewrite lookup_insert_ne.
Qed.

(** X8. Where [init] returns with a [shacl-iri] that is not empty, the root
    shape is that IRI, whatever the shapes document declares. *)
Theorem init_shaclIri_is_root
    (attrs : gmap string string) (parents : list (gmap string string))
    (final : Form) (iri : string) :
  create options fetch parse engine shaclTree attrs parents = (Return tt, final) ->
  attrs !! "shacl-iri" = Some iri -> iri <> "" ->
  _rootShaclIri final = NamedNode iri.
Proof.
  intros E Hiri Hne. rewrite create_init in E.
  apply init_returns in E as (_ & _ & _ & _ & _ & _ & _ & _ & _ & Hroot & _).
  simpl in Hroot. rewrite Hroot, Hiri.
  apply truthy_nonempty in Hne. by rewrite Hne.
Qed.

(** X9. The [shape-uri] attribute has no part in [init]: with it set to any
    value, [init] returns as it did without, with the same root shape and
    the same shapes collected. *)
Theorem init_ignores_shape_uri
    (attrs : gmap string string) (parents : list (gmap string string))
    (final : Form) (requested : string) :
  create options fetch parse engine shaclTree attrs parents = (Return tt, final) ->
  exists final',
    create options fetch parse engine shaclTree
      (<["shape-uri" := requested]> attrs) parents
    = (Return tt, final')
    /\ _rootShaclIri final' = _rootShaclIri final
    /\ shapeUris final' = shapeUris final.
Proof.
  intros E. rewrite create_init in *.
  assert (fst (init options fetch parse engine shaclTree
                 (with_root (Some None)
                    (fresh (<["shape-uri" := requested]> attrs) parents)))
          = Return tt) as Hreturns.
  { apply init_completes. simpl.
    assert (fst (init options fetch parse engine shaclTree
                   (with_root (Some None) (fresh attrs parents))) = Return tt)
      as H by (by rewrite E).
    apply init_completes in H as [(u & t & Hu & Hne & Hf & Hp) Hdata].
    simpl in *. split.
    - exists u, t. by rewrite lookup_insert_ne.
    - intros u'. rewrite lookup_insert_ne by done. apply Hdata. }
  destruct (init options fetch parse engine shaclTree
              (with_root (Some None)
                 (fresh (<["shape-uri" := requested]> attrs) parents)))
    as [o final'] eqn:E'. simpl in Hreturns. subst o.
  exists final'. split; [done|].
  apply init_returns in E
    as (u & t & qs & Hu & _ & Hf & Hp & _ & Huris & Hroot & _).
  apply init_returns in E'
    as (u' & t' & qs' & Hu' & _ & Hf' & Hp' & _ & Huris' & Hroot' & _).
  simpl in *. rewrite lookup_insert_ne in Hu', Hroot' by done.
  assert (qs' = qs) as -> by congruence.
  assert (shapeUris final' = shapeUris final) as Hsame by congruence.
  split; [|done]. rewrite Hroot, Hroot', Hsame. done.
Qed.

(** *** The getters *)

(** X10. A requested shape that is declared under several terms of the same
    value, or once: [shapeUri] returns the first of them in the order of
    [shapeUris]. *)
Theorem shapeUri_first_match (this : Form) (given : string)
    (before after : list Term) (term : Term) :
  attributes this !! "shape-uri" = Some given -> given <> "" ->
  shapeUris this = before ++ term :: after ->
  Rdf.value term = given ->
  (forall other, other ∈ before -> Rdf.value other <> given) ->
  get_shapeUri this = (Return (Some term), this).
Proof.
  intros Hattr Hne Huris Hvalue Hbefore.
  unfold get_shapeUri. run. rewrite Hattr.
  apply truthy_nonempty in Hne. rewrite Hne, Huris. clear Huris.
  induction before as [|other before IH]; simpl.
  - by rewrite Hvalue, String.eqb_refl.
  - assert (Rdf.value other <> given) as Hother by (apply Hbefore; by left).
    apply String.eqb_neq in Hother. rewrite Hother.
    apply IH. intros o Ho. apply Hbefore. by right.
Qed.

(** X11. Whatever [activeContentLanguages] returns is made of content languages:
    it is the active list as it stands when there is one, and the content
    languages themselves when there is none. Reading changes nothing. *)
Theorem activeContentLanguages_within_content (this final : Form)
    (languages : list string) :
  get_activeContentLanguages this = (Return languages, final) ->
  let active := closest_list "active-content-languages" this in
  let content := closest_list "content-languages" this in
  final = this
  /\ (forall tag, tag ∈ languages -> tag ∈ content)
  /\ (active <> [] -> languages = active)
  /\ (active = [] -> languages = content).
Proof.
  unfold get_activeContentLanguages. cbv zeta.
  destruct (Js.every _ _) eqn:E; simpl; [|done].
  pose proof (proj1 (every_includes _ _) E) as Hall.
  destruct (closest_list "active-content-languages" this) as [|tag rest] eqn:Eactive;
    simpl; intros [= <- <-]; done.
Qed.

(** X12. The nearest element that has the attribute decides what
    [contentLanguages] is: the host when it has it, else the first ancestor
    that does, whatever the elements above hold. With no such element it is
    the empty list; it is never an error. *)
Theorem contentLanguages_nearest (this : Form) :
  (forall before element after value,
     attributes this :: ancestors this = before ++ element :: after ->
     Forall (fun e : gmap string string => e !! "content-languages" = None)
       before ->
     element !! "content-languages" = Some value ->
     get_contentLanguages this = (Return (Js.split Js.comma value), this))
  /\ (get_contentLanguages this = (Return [], this)
      <-> Forall (fun e : gmap string string => e !! "content-languages" = None)
            (attributes this :: ancestors this)).
Proof.
  unfold get_contentLanguages, read, closest_list, closest.
  generalize (attributes this :: ancestors this). intros elements. split.
  - intros before element after value -> Hbefore Helement.
    induction before as [|e before IH]; simpl.
    + rewrite bool_decide_eq_true_2 by eauto. by rewrite Helement.
    + apply Forall_cons in Hbefore as [He Hbefore].
      rewrite bool_decide_eq_false_2 by (rewrite He; by intros [? ?]).
      by apply IH.
  - induction elements as [|e elements IH]; simpl.
    + split; [constructor|done].
    + destruct (e !! "content-languages") as [value|] eqn:Ee.
      * rewrite bool_decide_eq_true_2 by eauto. rewrite Ee. split.
        -- intros [= H]. by apply split_not_nil in H.
        -- intros H. apply Forall_cons in H as [H _]. congruence.
      * rewrite bool_decide_eq_false_2 by (intros [? ?]; done).
        rewrite IH. split; [by constructor|].
        intros H. by apply Forall_cons in H as [_ H].
Qed.

(** *** Rendering *)

(** X13. [render] fails without rendering: with no validator yet, it throws
    before any call is made and the element is as it was; when the validator
    fails, the failure is the failure of [render], after the one call to the
    validator, and no tree is compiled; and with no React root, it throws
    after the tree was compiled. *)
Theorem render_rejects (this : Form) :
  (_validator this = None ->
   render options engine shaclTree this
   = (Throw (TypeError "Cannot read properties of undefined (reading 'validate')"),
      this))
  /\ (forall v,
        _validator this = Some v ->
        engine v (_store this) [_subject this] = None ->
        render options engine shaclTree this
        = (Throw (Rejected "validate"),
           log (CallValidate v (_store this) [_subject this]) this))
  /\ (forall v report,
        _validator this = Some v ->
        engine v (_store this) [_subject this] = Some report ->
        _root this = None ->
        fst (render options engine shaclTree this)
        = Throw (TypeError "Cannot read properties of undefined (reading 'render')")
        /\ _root (snd (render options engine shaclTree this)) = None
        /\ calls (snd (render options engine shaclTree this))
           = calls this
             ++ [CallValidate v (_store this) [_subject this];
                 CallShaclTree report (_shaclDataset this) (_rootShaclIri this)]).
Proof.
  split; [|split].
  - intros Hv. unfold render, validate. run. by rewrite Hv.
  - intros v Hv He. unfold render, validate, get_subject. run.
    rewrite Hv. run. by rewrite He.
  - intros v report Hv He Hroot. unfold render, bind.
    pose proof (validate_run engine this) as Hrun.
    pose proof (validate_outcome this) as Hout.
    destruct (validate engine this) as [o that]. simpl in Hrun, Hout.
    rewrite Hv in Hrun, Hout. rewrite He in Hout. subst o that.
    rewrite render_resume_state. simpl. rewrite Hroot. simpl.
    rewrite Hroot, <- app_assoc. done.
Qed.

(** X14. With a validator that answers and a React root, [render] returns, and
    the root holds the tree compiled from the answer, the shapes and the
    root shape, with the data pointer and the language priorities of the
    element. The calls are the validation, the compilation and the
    rendering, in this order; the store, the subject, the attributes and
    the other fields are as they were. *)
Theorem render_shows_tree (this : Form) (v : Validator) (report : Report)
    (shown : option FormLevelProps) :
  _validator this = Some v ->
  engine v (_store this) [_subject this] = Some report ->
  _root this = Some shown ->
  let compiled :=
    shaclTree report (_shaclDataset this) options (_rootShaclIri this) in
  let props :=
    mkProps (fst compiled) (_data this) (_uiLanguagePriorities this) in
  render options engine shaclTree this
  = (Return tt,
     with_root (Some (Some props))
       (with_shaclDataset (snd compiled)
          (with_calls
             (calls this
              ++ [CallValidate v (_store this) [_subject this];
                  CallShaclTree report (_shaclDataset this) (_rootShaclIri this);
                  CallRootRender props])
             this))).
Proof.
  intros Hv He Hroot. cbv zeta. unfold render, bind.
  pose proof (validate_run engine this) as Hrun.
  pose proof (validate_outcome this) as Hout.
  destruct (validate engine this) as [o that]. simpl in Hrun, Hout.
  rewrite Hv in Hrun, Hout. rewrite He in Hout. subst o that.
  rewrite render_resume_state. simpl. rewrite Hroot.
  unfold log, with_root, with_shaclDataset, with_calls. simpl.
  by rewrite <- !app_assoc.
Qed.

(** *** The subject setter and what follows it *)

(** X15. After the subject was set, a validation is about the store as the
    rename left it and still about the subject there was before; and a
    second setting renames from that same subject again. *)
Theorem validate_after_set_subject (this : Form) (v : Validator)
    (newValue another : Term) :
  _validator this = Some v ->
  let after := snd (set_subject swapSubject newValue this) in
  let renamed := swapSubject (_store this) (_subject this) newValue in
  validate engine after
  = (match engine v renamed [_subject this] with
     | Some report => Return report
     | None => Throw (Rejected "validate")
     end,
     log (CallValidate v renamed [_subject this]) after)
  /\ _store (snd (set_subject swapSubject another after))
     = swapSubject renamed (_subject this) another.
Proof.
  intros Hv. cbv zeta. split; [|done].
  unfold validate, set_subject, get_subject. run. rewrite Hv. run.
  by destruct (engine v _ _).
Qed.

End HostMoreFacts.

(** ** The tabs of an initialised host *)

Lemma scan_NoDup (store : Rdf.Dataset) (acc : list string) :
  NoDup acc ->
  NoDup (fold_left
           (fun contentLanguages quad =>
              match Rdf.language (Rdf.object quad) with
              | Some language =>
                  if Js.truthy language
                  then Js.set_add contentLanguages language
                  else contentLanguages
              | None => contentLanguages
              end) store acc).
Proof.
  revert acc. induction store as [|q store IH]; intros acc Hacc; simpl;
    [done|]. apply IH.
  destruct (Rdf.language (Rdf.object q)) as [l|]; [|done].
  destruct (Js.truthy l); [|done]. by apply set_add_NoDup.
Qed.

Section TabsOfHost.

Context {Report TreeItem Options : Type}.
Variable options : Options.
Variable fetch : string -> option string.
Variable parse : string -> option (list Quad).
Variable engine : Validator -> Rdf.Dataset -> list Term -> option Report.
Variable shaclTree :
  Report -> Rdf.Dataset -> Options -> Term -> TreeItem * Rdf.Dataset.
Variable name : option string.
Variable term : option Term.
Variable showLanguagePicker : bool.
Variable labels : string -> option string.

Local Abbreviation Host := (@ShaclForm Report TreeItem).

Lemma LanguageTabs_keys (this final : Host) (view : LanguageTabs.View) :
  LanguageTabs.LanguageTabs name term showLanguagePicker labels this
  = (Return view, final) ->
  map LanguageTabs.key (LanguageTabs.tabs view)
  = closest_list "content-languages" this.
Proof.
  unfold LanguageTabs.LanguageTabs, bind, get_contentLanguages, read.
  rewrite tabs_run.
  destruct (fst (get_activeContentLanguages this)) as [active|e].
  - intros [= <- <-]. simpl. rewrite map_map. simpl. apply map_id.
  - destruct (closest_list "content-languages" this); [|done].
    by intros [= <- <-].
Qed.

(** X21. The tabs shown for a host that [init] has left, the host having no
    [content-languages] of its own and no language tag holding a comma: no
    two tabs have the same key, every language observed in the store has
    its tab, and when a language is observed every tab is the tab of an
    observed language. *)
Theorem tabs_after_init
    (attrs : gmap string string) (parents : list (gmap string string))
    (final final' : Host) (view : LanguageTabs.View) :
  attrs !! "content-languages" = None ->
  create options fetch parse engine shaclTree attrs parents = (Return tt, final) ->
  (forall tag, observed (_store final) tag -> Js.contains Js.comma tag = false) ->
  LanguageTabs.LanguageTabs name term showLanguagePicker labels final
  = (Return view, final') ->
  let keys := map LanguageTabs.key (LanguageTabs.tabs view) in
  NoDup keys
  /\ (forall tag, observed (_store final) tag -> tag ∈ keys)
  /\ ((exists tag, observed (_store final) tag) ->
      forall tag, tag ∈ keys -> observed (_store final) tag).
Proof.
  intros Hnone E Hcomma Hview. cbv zeta.
  rewrite (LanguageTabs_keys _ _ _ Hview).
  rewrite create_init in E.
  apply init_returns in E
    as (_ & _ & _ & _ & _ & _ & _ & _ & _ & _ & _ & Hattrs & _).
  simpl in Hattrs. rewrite Hnone in Hattrs.
  rewrite (closest_self "content-languages"
             (Js.join Js.comma (scanLanguages (_store final)))).
  2: { rewrite Hattrs. apply lookup_insert_eq. }
  destruct (scanLanguages (_store final)) as [|tag0 rest] eqn:Escan.
  - simpl. split; [apply NoDup_singleton|]. split.
    + intros tag Htag. apply scanLanguages_elem_of in Htag.
      rewrite Escan in Htag. by apply elem_of_nil in Htag.
    + intros [tag Htag]. apply scanLanguages_elem_of in Htag.
      rewrite Escan in Htag. by apply elem_of_nil in Htag.
  - rewrite <- Escan. rewrite split_join.
    + split; [apply scan_NoDup, NoDup_nil_2|].
      split; [intros tag; apply scanLanguages_elem_of|].
      intros _ tag. apply scanLanguages_elem_of.
    + by rewrite Escan.
    + intros tag Htag. apply Hcomma. by apply scanLanguages_elem_of.
Qed.

End TabsOfHost.

(** ** The further properties at work *)

Lemma LanguageTabs_tabs_witness :
  map LanguageTabs.key (LanguageTabs.tabs
    (match fst (Hosts.tabs Hosts.loaded) with
     | Return view => view
     | Throw _ => LanguageTabs.mkView "" None [] false
     end))
  = closest_list "content-languages" Hosts.loaded.
Proof.
  apply (LanguageTabs_tabs (Some "Names") (Some (Example.ex "names")) false
           (fun _ => None) Hosts.loaded _ Hosts.loaded).
  vm_compute. reflexivity.
Defined.

Lemma LanguageTabs_active_witness :
  Forall (fun tab => LanguageTabs.linkClass tab = "nav-link active")
    (LanguageTabs.tabs
       (match fst (Hosts.tabs Hosts.loaded) with
        | Return view => view
        | Throw _ => LanguageTabs.mkView "" None [] false
        end)).
Proof.
  apply (LanguageTabs_active (Some "Names") (Some (Example.ex "names")) false
           (fun _ => None) Hosts.loaded _ Hosts.loaded);
    vm_compute; reflexivity.
Defined.

Lemma tabs_after_init_witness :
  NoDup (map LanguageTabs.key (LanguageTabs.tabs
    (match fst (Hosts.tabs Hosts.loaded) with
     | Return view => view
     | Throw _ => LanguageTabs.mkView "" None [] false
     end))).
Proof.
  apply (tabs_after_init tt Example.fetch Example.parse Example.engine
           Tree.compile (Some "Names") (Some (Example.ex "names")) false
           (fun _ => None) Example.people_host [] Hosts.loaded Hosts.loaded).
  - vm_compute. reflexivity.
  - vm_compute. reflexivity.
  - intros tag Htag. apply scanLanguages_elem_of in Htag. vm_compute in Htag.
    apply elem_of_cons in Htag as [->|Htag]; [reflexivity|].
    apply elem_of_cons in Htag as [->|Htag]; [reflexivity|].
    by apply elem_of_nil in Htag.
  - vm_compute. reflexivity.
Defined.

Lemma constructor_without_shacl_url_witness :
  fst (constructor tt Example.fetch Example.parse Example.engine Tree.compile
         (@fresh Tree.Report Tree.TreeItem ∅ []))
  = Return (Throw (Error_ "A shacl-url property is required. It should link to a SHACL turtle file")).
Proof.
  destruct (constructor_without_shacl_url tt Example.fetch Example.parse
              Example.engine Tree.compile ∅ []) as (final & -> & _).
  - left. vm_compute. reflexivity.
  - reflexivity.
Defined.

Lemma init_failure_loads_nothing_witness :
  _store (snd (Example.create ∅)) = [].
Proof.
  apply (init_failure_loads_nothing tt Example.fetch Example.parse
           Example.engine Tree.compile ∅ []
           (Error_ "A shacl-url property is required. It should link to a SHACL turtle file")
           (snd (Example.create ∅))).
  vm_compute. reflexivity.
Defined.

Lemma init_loads_data_witness : NoDup (_store Hosts.loaded).
Proof.
  apply (init_loads_data tt Example.fetch Example.parse Example.engine
           Tree.compile Example.people_host [] Hosts.loaded).
  vm_compute. reflexivity.
Defined.

Lemma init_chooses_subject_witness :
  _subject (snd (Example.create Hosts.carla_host)) = Example.ex "carla".
Proof.
  assert (Example.create Hosts.carla_host
          = (Return tt, snd (Example.create Hosts.carla_host))) as Hcreated
    by (vm_compute; reflexivity).
  apply (proj1 (init_chooses_subject tt Example.fetch Example.parse
                  Example.engine Tree.compile Hosts.carla_host []
                  (snd (Example.create Hosts.carla_host)) Hcreated)
           "http://example.org/carla").
  - vm_compute. reflexivity.
  - done.
Defined.

Lemma init_renders_once_witness :
  exists v shapes, _validator Hosts.loaded = Some v /\ v_dataset v = shapes.
Proof.
  assert (Example.create Example.people_host = (Return tt, Hosts.loaded))
    as Hcreated by (vm_compute; reflexivity).
  destruct (init_renders_once tt Example.fetch Example.parse Example.engine
              Tree.compile Example.people_host [] Hosts.loaded Hcreated)
    as (v & shapes & Hv & Hshapes & _).
  exists v, shapes. split; assumption.
Defined.

Lemma init_collects_node_shapes_witness :
  Example.ex "PlaceShape" ∈ shapeUris (snd (Example.create Example.two_shapes_host)).
Proof.
  assert (Example.create Example.two_shapes_host
          = (Return tt, snd (Example.create Example.two_shapes_host)))
    as Hcreated by (vm_compute; reflexivity).
  assert (Example.two_shapes_host !! "shacl-url" = Some "two.ttl") as Hurl
    by (vm_compute; reflexivity).
  apply (proj1 (init_collects_node_shapes tt Example.fetch Example.parse
                  Example.engine Tree.compile Example.two_shapes_host []
                  (snd (Example.create Example.two_shapes_host))
                  "two.ttl" "two" Example.two_shapes
                  Hurl eq_refl eq_refl Hcreated)).
  exists (Rdf.triple (Example.ex "PlaceShape") (Rdf.rdf "type") (Rdf.sh "NodeShape")).
  split; [right; left|]. repeat split.
Defined.

Lemma init_shaclIri_is_root_witness :
  _rootShaclIri (snd (Example.create Hosts.other_root_host))
  = NamedNode "http://example.org/OtherShape".
Proof.
  apply (init_shaclIri_is_root tt Example.fetch Example.parse Example.engine
           Tree.compile Hosts.other_root_host []).
  - vm_compute. reflexivity.
  - vm_compute. reflexivity.
  - done.
Defined.

Lemma init_ignores_shape_uri_witness :
  exists final',
    create tt Example.fetch Example.parse Example.engine Tree.compile
      (<["shape-uri" := "http://example.org/PlaceShape"]> Example.two_shapes_host) []
    = (Return tt, final')
    /\ _rootShaclIri final'
       = _rootShaclIri (snd (Example.create Example.two_shapes_host))
    /\ shapeUris final'
       = shapeUris (snd (Example.create Example.two_shapes_host)).
Proof.
  apply (init_ignores_shape_uri tt Example.fetch Example.parse Example.engine
           Tree.compile Example.two_shapes_host []).
  vm_compute. reflexivity.
Defined.

Lemma shapeUri_first_match_witness :
  get_shapeUri (snd (Example.create Hosts.place_host))
  = (Return (Some (Example.ex "PlaceShape")), snd (Example.create Hosts.place_host)).
Proof.
  apply (shapeUri_first_match (snd (Example.create Hosts.place_host))
           "http://example.org/PlaceShape" [Example.ex "PersonShape"] []).
  - vm_compute. reflexivity.
  - done.
  - vm_compute. reflexivity.
  - reflexivity.
  - intros other Hother. apply list_elem_of_singleton in Hother. by subst.
Defined.

Lemma activeContentLanguages_within_content_witness :
  Hosts.loaded = Hosts.loaded
  /\ forall tag, tag ∈ ["en"; "de"] ->
       tag ∈ closest_list "content-languages" Hosts.loaded.
Proof.
  assert (get_activeContentLanguages Hosts.loaded
          = (Return ["en"; "de"], Hosts.loaded)) as Hread
    by (vm_compute; reflexivity).
  destruct (activeContentLanguages_within_content Hosts.loaded Hosts.loaded
              ["en"; "de"] Hread) as (Hsame & Hwithin & _).
  split; assumption.
Defined.

Lemma render_shows_tree_witness :
  fst (render tt Example.engine Tree.compile Hosts.loaded) = Return tt.
Proof.
  rewrite (render_shows_tree tt Example.engine Tree.compile Hosts.loaded
             (mkValidator (Rdf.dataset Example.one_shape) true true) []
             (match _root Hosts.loaded with Some shown => shown | None => None end));
    [vm_compute; reflexivity ..].
Defined.

Lemma validate_after_set_subject_witness :
  fst (validate Example.engine
         (snd (set_subject swapSubject (Example.ex "carla") Hosts.loaded)))
  = Return [].
Proof.
  assert (_validator Hosts.loaded
          = Some (mkValidator (Rdf.dataset Example.one_shape) true true))
    as Hv by (vm_compute; reflexivity).
  rewrite (proj1 (validate_after_set_subject Example.engine swapSubject
                    Hosts.loaded
                    (mkValidator (Rdf.dataset Example.one_shape) true true)
                    (Example.ex "carla") (Example.ex "anna") Hv)).
  reflexivity.
Defined.
